(** * Speaker display: the schedule state computation of [script.py]

    A shallow embedding of [compute_display_state], [format_timedelta] and
    the minute rounding of [SpeakerDisplayApp.update], with the properties
    of the display state engine proved about them; then of the loader
    [load_schedule] and of the renderer, [SpeakerDisplayApp.update] with
    [_apply_theme] and the widgets of [__init__], with what they keep
    together with the engine.

    Conventions of the embedding.
    - A Python [dict] with string keys is a [gmap string value].
    - A naive [datetime] is the number of microseconds since a fixed
      epoch, a [timedelta] a number of microseconds, both in [Z]; the
      comparisons and the subtraction of [datetime] are those of [Z].
    - [timedelta.total_seconds()] is the float Python computes: the
      microseconds divided by 10^6 and rounded to the nearest binary64
      number, given by its significand and exponent in [Z]. Below 2^34
      seconds, some 544 years, [int] of it is the whole seconds of the
      duration ([total_seconds_int_exact]); from there on it can be one
      second more.
    - Text is a [string] with one [ascii] per code point, which covers the
      code points below 256.
    - An exception is a value of [exn]; code that may raise lives in the
      error monad [result].
    - The file [load_schedule] reads is the list of rows
      [csv.DictReader] yields, each a [gmap string string]; the parsers of
      Python's library are parameters, the fields of [PyLib].
    - The window is a record of its labels; a method of the application
      is a function on it, in the monad [UI].
    - [compute_display_state] is embedded twice: on a list of event dicts,
      where the properties of its result are proved, and on references
      into a heap of objects ([ref_compute_display_state]), where what a
      call does to the objects of its caller can be said. The second is
      shown to compute the first. *)

From Stdlib Require Import ZArith Ascii String List Lia DecimalString.
From stdpp Require Import gmap strings list fin_maps.

Local Open Scope Z_scope.

(** ** Python values and exceptions *)

Inductive exn : Type :=
| KeyError (key : string)
| TypeError
| AttributeError.

Inductive result (A : Type) : Type :=
| Ok (a : A)
| Raise (e : exn).

Arguments Ok {A} a.
Arguments Raise {A} e.

#[global] Instance result_ret : MRet result := fun A a => Ok a.
#[global] Instance result_bind : MBind result := fun A B f m =>
  match m with
  | Ok a => f a
  | Raise e => Raise e
  end.

(** The values an event dictionary built by [load_schedule] holds:
    [None], [str], [datetime.date] (an ordinal day) and
    [datetime.datetime]. *)
Inductive value : Type :=
| VNone
| VStr (s : string)
| VDate (ordinal : Z)
| VDatetime (us : Z).

#[global] Instance value_eq_dec : EqDecision value.
Proof. solve_decision. Defined.

Abbreviation Event := (gmap string value).

(** Truth value of an object in a condition: [None] and the empty string
    are false, dates and datetimes are true. *)
Definition truthy (v : value) : bool :=
  match v with
  | VNone => false
  | VStr s => negb (String.eqb s "")
  | VDate _ | VDatetime _ => true
  end.

(** Truth value of a variable that holds [None] or a dict: a dict is
    false exactly when it is empty. *)
Definition truthy_dict (o : option Event) : bool :=
  match o with
  | None => false
  | Some d => negb (bool_decide (d = ∅))
  end.

(** [d[k]] *)
Definition getitem (d : Event) (k : string) : result value :=
  match d !! k with
  | Some v => Ok v
  | None => Raise (KeyError k)
  end.

(** [d.get(k)] *)
Definition dict_get (d : Event) (k : string) : value :=
  match d !! k with
  | Some v => v
  | None => VNone
  end.

(** [a or b] *)
Definition py_or (a b : value) : value := if truthy a then a else b.

(** [v <= now], [now < v], [v >= now] and [v - now] for a datetime [now]:
    every operand that is not a datetime raises [TypeError]. *)
Definition datetime_le (v : value) (now : Z) : result bool :=
  match v with
  | VDatetime t => Ok (t <=? now)
  | _ => Raise TypeError
  end.

Definition datetime_gt (v : value) (now : Z) : result bool :=
  match v with
  | VDatetime t => Ok (now <? t)
  | _ => Raise TypeError
  end.

Definition datetime_ge (v : value) (now : Z) : result bool :=
  match v with
  | VDatetime t => Ok (t >=? now)
  | _ => Raise TypeError
  end.

Definition datetime_sub (v : value) (now : Z) : result Z :=
  match v with
  | VDatetime t => Ok (t - now)
  | _ => Raise TypeError
  end.

(** *** [timedelta.total_seconds()] and [int]

    [td.total_seconds()] is the true division of the microseconds of [td]
    by [10**6], a [float]: the binary64 number nearest to the quotient,
    ties to the even significand. *)

(** [a / b] rounded to the nearest integer, ties to the even one, for
    [0 <= a] and [0 < b]. *)
Definition div_nearest_even (a b : Z) : Z :=
  let q := a / b in
  let r := a mod b in
  if 2 * r <? b then q
  else if b <? 2 * r then q + 1
  else if Z.even q then q else q + 1.

(** The binary exponent of [n / d], that is [floor (log2 (n / d))], for
    [0 < n] and [0 < d]. *)
Definition ilog2_ratio (n d : Z) : Z :=
  if d <=? n then Z.log2 (n / d) else - Z.log2_up ((d + n - 1) / n).

(** [n / d] for two positive integers as [int.__truediv__] returns it:
    the float [m * 2^e] with the 53-bit significand [m], [2^52 <= m <=
    2^53]. The microseconds of a [timedelta] stay below [2^67], so the
    quotient by [10**6] is never subnormal nor out of range. *)
Definition true_divide (n d : Z) : Z * Z :=
  let e := ilog2_ratio n d - 52 in
  let m := if 0 <=? e then div_nearest_even n (d * 2 ^ e)
           else div_nearest_even (n * 2 ^ (- e)) d in
  (m, e).

(** [int(x)] of the float [x = m * 2^e], [0 <= m]. *)
Definition int_of_float (x : Z * Z) : Z :=
  let (m, e) := x in
  if 0 <=? e then m * 2 ^ e else m / 2 ^ (- e).

(** [int(td.total_seconds())]: the division and the truncation are
    symmetric about zero. *)
Definition total_seconds_int (td : Z) : Z :=
  if td =? 0 then 0
  else Z.sgn td * int_of_float (true_divide (Z.abs td) 1000000).

(** [datetime.timedelta(seconds=secs)] *)
Definition timedelta_seconds (secs : Z) : Z := secs * 1000000.

(** ** [str.strip] and [str.lower] *)

(** The white space of [str.strip()] below code point 256: TAB, LF, VT,
    FF, CR, the separators FS, GS, RS, US, the space, NEL and the
    no-break space. *)
Definition is_space (c : ascii) : bool :=
  let n := Z.of_N (N_of_ascii c) in
  ((9 <=? n) && (n <=? 13)) || ((28 <=? n) && (n <=? 32))
  || (n =? 133) || (n =? 160).

Fixpoint lstrip (s : string) : string :=
  match s with
  | EmptyString => EmptyString
  | String c r => if is_space c then lstrip r else s
  end.

Fixpoint rstrip (s : string) : string :=
  match s with
  | EmptyString => EmptyString
  | String c r =>
      match rstrip r with
      | EmptyString => if is_space c then EmptyString else String c EmptyString
      | r' => String c r'
      end
  end.

Definition strip (s : string) : string := rstrip (lstrip s).

(** Lower-casing below code point 256: A-Z, and the capital letters
    U+00C0 to U+00DE except the multiplication sign U+00D7, move up by 32. *)
Definition lower_char (c : ascii) : ascii :=
  let n := Z.of_N (N_of_ascii c) in
  if ((65 <=? n) && (n <=? 90))
     || ((192 <=? n) && (n <=? 222) && negb (n =? 215))
  then ascii_of_N (Z.to_N (n + 32))
  else c.

Fixpoint lower (s : string) : string :=
  match s with
  | EmptyString => EmptyString
  | String c r => String (lower_char c) (lower r)
  end.

(** [v.strip().lower()]: only [str] has the method. *)
Definition strip_lower (v : value) : result string :=
  match v with
  | VStr s => Ok (lower (strip s))
  | _ => Raise AttributeError
  end.

(** ** [compute_display_state] *)

(** The dict the function returns. Its three event fields hold events as
    the schedule does: [E] is the type of what a schedule holds, an event
    dict, or a reference to one when objects live in a heap. *)
Record DisplayState (E : Type) : Type := mkState {
  mode : string;
  current : option E;
  next_event : option E;
  following_event : option E;
  seconds_to_start : option Z
}.

Arguments mkState {E} _ _ _ _ _.
Arguments mode {E} _.
Arguments current {E} _.
Arguments next_event {E} _.
Arguments following_event {E} _.
Arguments seconds_to_start {E} _.

(** The dict returned on the two ['none'] paths. *)
Definition none_state {E : Type} : DisplayState E :=
  {| mode := "none"; current := None; next_event := None;
     following_event := None; seconds_to_start := None |}.

(** [e['start'] <= now < e['end']]: a chained comparison, whose right
    half is evaluated only when the left half holds. *)
Definition is_current (e : Event) (now : Z) : result bool :=
  s ← getitem e "start";
  le ← datetime_le s now;
  if le : bool then (en ← getitem e "end"; datetime_gt en now)
  else Ok false.

(** [e['start'] >= now] *)
Definition is_upcoming (e : Event) (now : Z) : result bool :=
  s ← getitem e "start"; datetime_ge s now.

(** The variables the loop assigns. *)
Record scan_vars : Type := mkVars {
  v_current : option Event;
  v_upcoming : list Event
}.

(** One turn of [for e in schedule]. *)
Definition scan_body (now : Z) (e : Event) (st : scan_vars) : result scan_vars :=
  c ← is_current e now;
  let cur := if c : bool then Some e else v_current st in
  u ← is_upcoming e now;
  let upc := if u : bool then v_upcoming st ++ [e] else v_upcoming st in
  Ok (mkVars cur upc).

Fixpoint scan (now : Z) (schedule : list Event) (st : scan_vars) : result scan_vars :=
  match schedule with
  | [] => Ok st
  | e :: rest => st' ← scan_body now e st; scan now rest st'
  end.

(** [SECONDS_BEFORE_INTERMISSION_WARNING], which the comparison repeats
    as the literal [5 * 60]. *)
Definition SECONDS_BEFORE_INTERMISSION_WARNING : Z := 5 * 60.

(** [event_type not in ("break", "social")] *)
Definition is_session (event_type : string) : bool :=
  negb (String.eqb event_type "break" || String.eqb event_type "social").

Definition compute_display_state (schedule : list Event) (now : Z)
  : result (DisplayState Event) :=
  st ← scan now schedule (mkVars None []);
  let current := v_current st in
  let upcoming := v_upcoming st in
  let next_event := head upcoming in
  let following_event := if (1 <? Z.of_nat (length upcoming)) then upcoming !! 1%nat else None in
  if negb (truthy_dict current) && negb (truthy_dict next_event) then
    Ok none_state
  else if truthy_dict current then
    Ok {| mode := "in_talk"; current := current; next_event := next_event;
          following_event := following_event; seconds_to_start := None |}
  else
    match next_event with
    | None => Ok none_state
    | Some nxt =>
        s ← getitem nxt "start";
        delta ← datetime_sub s now;
        let secs := total_seconds_int delta in
        event_type ← strip_lower (py_or (dict_get nxt "type") (VStr ""));
        let mode :=
          if is_session event_type && (secs <=? 5 * 60)
          then "pre_start"%string else "normal"%string in
        Ok {| mode := mode; current := None; next_event := Some nxt;
              following_event := following_event;
              seconds_to_start := Some (Z.max secs 0) |}
    end.

(** ** Well-typed events and their fields *)

(** The event dict [load_schedule] builds for one row. *)
Definition loaded_event (track : option string) (date : Z) (event_type : string)
    (start_datetime end_datetime : Z) (speaker title synopsis : string) : Event :=
  <["track" := match track with Some t => VStr t | None => VNone end]>
  (<["date" := VDate date]>
  (<["type" := VStr event_type]>
  (<["start" := VDatetime start_datetime]>
  (<["end" := VDatetime end_datetime]>
  (<["speaker" := VStr speaker]>
  (<["title" := VStr title]>
  (<["synopsis" := VStr synopsis]> ∅))))))).

Definition has_datetime (e : Event) (k : string) : bool :=
  match e !! k with
  | Some (VDatetime _) => true
  | _ => false
  end.

(** An event is well typed when ['start'] and ['end'] hold datetimes and
    ['type'] is absent, [None] or a string. *)
Definition well_typed (e : Event) : bool :=
  has_datetime e "start" && has_datetime e "end" &&
  match e !! "type" with
  | None | Some VNone | Some (VStr _) => true
  | Some _ => false
  end.

Definition well_typed_schedule (schedule : list Event) : bool :=
  forallb well_typed schedule.

(** The fields of a well-typed event, as the properties speak of them. *)
Definition start (e : Event) : Z :=
  match e !! "start" with
  | Some (VDatetime t) => t
  | _ => 0
  end.

Definition end_ (e : Event) : Z :=
  match e !! "end" with
  | Some (VDatetime t) => t
  | _ => 0
  end.

(** The type text of an event: the empty string when the key is absent
    or holds [None]. *)
Definition type_text (e : Event) : string :=
  match e !! "type" with
  | Some (VStr s) => s
  | _ => ""
  end.

(** The type of an event, trimmed and lower-cased. *)
Definition event_type (e : Event) : string := lower (strip (type_text e)).

(** [e] is in progress at [now]; [e] starts at [now] or later. *)
Definition currentb (now : Z) (e : Event) : bool :=
  (start e <=? now) && (now <? end_ e).

Definition upcomingb (now : Z) (e : Event) : bool := now <=? start e.

(** The events in progress and the upcoming list, in schedule order. *)
Definition currents (schedule : list Event) (now : Z) : list Event :=
  List.filter (currentb now) schedule.

Definition upcoming (schedule : list Event) (now : Z) : list Event :=
  List.filter (upcomingb now) schedule.

(** Whole seconds from [now] to the start of [e]. *)
Definition seconds_until (e : Event) (now : Z) : Z :=
  total_seconds_int (start e - now).

(** [datetime.datetime.combine(date_obj, start_time_obj)] for the time of
    day [h:m] on day [date], and the end [minutes] later. *)
Definition combine (date h m : Z) : Z :=
  ((date * 24 + h) * 60 + m) * 60 * 1000000.

Definition timedelta_minutes (minutes : Z) : Z := minutes * 60 * 1000000.

(** The schedule of the end-to-end scenario: a talk from 09:00 to 09:30
    and a break from 09:30 to 09:45. *)
Definition demo_talk : Event :=
  loaded_event (Some "STUDIO A") 0 "Talk" (combine 0 9 0)
    (combine 0 9 0 + timedelta_minutes 30) "Ada" "Engines" "".

Definition demo_break : Event :=
  loaded_event (Some "STUDIO A") 0 "Break" (combine 0 9 30)
    (combine 0 9 30 + timedelta_minutes 15) "" "Coffee" "".

Definition demo_schedule : list Event := [demo_talk; demo_break].

(** A workshop from 09:20 to 10:00, which overlaps the talk from 09:20
    to 09:30. *)
Definition demo_overlap : Event :=
  loaded_event (Some "STUDIO A") 0 "Workshop" (combine 0 9 20)
    (combine 0 9 20 + timedelta_minutes 40) "Grace" "Compilers" "".

(** A row with duration 0: a degenerate event, which ends as it starts,
    at 09:50. *)
Definition demo_degenerate : Event :=
  loaded_event (Some "STUDIO A") 0 "Talk" (combine 0 9 50)
    (combine 0 9 50 + timedelta_minutes 0) "" "Lightning" "".

(** [s] is [word], a word in lower-case letters, in some letter case. *)
Fixpoint case_variant (word s : string) : bool :=
  match word, s with
  | EmptyString, EmptyString => true
  | String w word', String c s' =>
      (Ascii.eqb c w || Ascii.eqb c (ascii_of_N (N_of_ascii w - 32)))
      && case_variant word' s'
  | _, _ => false
  end.

(** A talk that starts at 09:05, 300 seconds after 09:00:00, and a break
    that starts at 09:02. *)
Definition demo_talk_905 : Event :=
  loaded_event (Some "STUDIO B") 0 "Talk" (combine 0 9 5)
    (combine 0 9 5 + timedelta_minutes 30) "Alan" "Machines" "".

Definition demo_break_902 : Event :=
  loaded_event (Some "STUDIO B") 0 "BREAK" (combine 0 9 2)
    (combine 0 9 2 + timedelta_minutes 30) "" "Tea" "".

(** A talk that starts at 09:30 with the break, after it in the schedule. *)
Definition demo_tie : Event :=
  loaded_event (Some "STUDIO A") 0 "Talk" (combine 0 9 30)
    (combine 0 9 30 + timedelta_minutes 30) "Barbara" "Abstraction" "".

(** A talk at midnight of day 939435, and an instant one microsecond
    after midnight of day 739435: 200000 days less one microsecond
    earlier, that is 17279999999 whole seconds. *)
Definition demo_far : Event :=
  loaded_event (Some "STUDIO A") 939435 "Talk" (combine 939435 0 0)
    (combine 939435 0 0 + timedelta_minutes 30) "Edsger" "Structure" "".

Definition demo_far_now : Z := combine 739435 0 0 + 1.

(** ** [format_timedelta] and the minute warning of [update] *)

(** [f"{n:02d}"]: the decimal digits of [n], with a zero in front when
    that makes fewer than two characters. *)
Definition fmt_02d (n : Z) : string :=
  let s := NilZero.string_of_int (Z.to_int n) in
  if (String.length s <? 2)%nat then String "0" s else s.

Definition format_timedelta (td : Z) : string :=
  let total := total_seconds_int td in
  let total := if total <? 0 then 0 else total in
  let hrs := total / 3600 in
  let rem := total mod 3600 in
  let mins := rem / 60 in
  let secs := rem mod 60 in
  if negb (hrs =? 0)
  then (fmt_02d hrs ++ ":" ++ fmt_02d mins ++ ":" ++ fmt_02d secs)%string
  else (fmt_02d mins ++ ":" ++ fmt_02d secs)%string.

(** The pre-start branch of [SpeakerDisplayApp.update]:
    [secs = state['seconds_to_start'] or 0]. *)
Definition warning_secs {E : Type} (state : DisplayState E) : Z :=
  match seconds_to_start state with
  | Some n => if n =? 0 then 0 else n
  | None => 0
  end.

(** [minutes_remaining = max((secs + 59) // 60, 0)] *)
Definition minutes_remaining {E : Type} (state : DisplayState E) : Z :=
  Z.max ((warning_secs state + 59) / 60) 0.

(** [countdown_str = format_timedelta(datetime.timedelta(seconds=secs))] *)
Definition countdown_str {E : Type} (state : DisplayState E) : string :=
  format_timedelta (timedelta_seconds (warning_secs state)).

(** The number of colons of a text, which tells [MM:SS] from [HH:MM:SS]. *)
Fixpoint colons (s : string) : nat :=
  match s with
  | EmptyString => 0%nat
  | String c r => ((if Ascii.eqb c ":" then 1 else 0) + colons r)%nat
  end.

(** ** The call on objects held by reference *)

(** The caller of [compute_display_state] passes a reference to a list
    object, whose items are references to the event dicts. A heap maps
    references to objects; a computation may read it, allocate in it and
    write to it, and hands it on also when it raises. *)
Abbreviation loc := positive.

Inductive obj : Type :=
| ODict (d : gmap string value)
| OList (items : list loc).

Abbreviation heap := (gmap loc obj).

Definition M (A : Type) : Type := heap → result A * heap.

#[global] Instance M_ret : MRet M := fun A a h => (Ok a, h).
#[global] Instance M_bind : MBind M := fun A B f m h =>
  match m h with
  | (Ok a, h') => f a h'
  | (Raise e, h') => (Raise e, h')
  end.

(** A step that reads no object. *)
Definition lift {A : Type} (r : result A) : M A := fun h => (r, h).

(** Reading the dict, or the list, a reference points to. A reference to
    an object of the other kind raises [TypeError]; a Python reference
    always points to an object, and the case of none is there to make the
    reading total. *)
Definition deref_dict (l : loc) : M (gmap string value) := fun h =>
  match h !! l with
  | Some (ODict d) => (Ok d, h)
  | _ => (Raise TypeError, h)
  end.

Definition deref_list (l : loc) : M (list loc) := fun h =>
  match h !! l with
  | Some (OList items) => (Ok items, h)
  | _ => (Raise TypeError, h)
  end.

(** [[]]: a new list object. *)
Definition new_list : M loc := fun h =>
  let l := fresh (dom h) in (Ok l, <[l := OList []]> h).

(** [l.append(x)] *)
Definition list_append (l x : loc) : M unit := fun h =>
  match h !! l with
  | Some (OList items) => (Ok tt, <[l := OList (items ++ [x])]> h)
  | _ => (Raise AttributeError, h)
  end.

(** Truth value of a variable that holds [None] or a reference to a
    dict. *)
Definition ref_truthy (o : option loc) : M bool :=
  match o with
  | None => mret false
  | Some l => d ← deref_dict l; mret (truthy_dict (Some d))
  end.

(** One turn of [for e in schedule], with [upcoming] a list object. *)
Definition ref_scan_body (now : Z) (upcoming e : loc) (current : option loc)
  : M (option loc) :=
  d ← deref_dict e;
  c ← lift (is_current d now);
  let current := if c : bool then Some e else current in
  u ← lift (is_upcoming d now);
  _ ← (if u : bool then list_append upcoming e else mret tt);
  mret current.

Fixpoint ref_scan (now : Z) (upcoming : loc) (items : list loc)
    (current : option loc) : M (option loc) :=
  match items with
  | [] => mret current
  | e :: rest =>
      current ← ref_scan_body now upcoming e current;
      ref_scan now upcoming rest current
  end.

(** The statements after the loop: they read [current] and the items
    [up] of [upcoming], and build the dict to return. The truth values of
    [current] and [next_event] are read once each, ahead of the
    conditions that test them: reading them changes nothing. *)
Definition ref_display_state (now : Z) (current : option loc) (up : list loc)
  : M (DisplayState loc) :=
  let next_event := head up in
  let following_event :=
    if (1 <? Z.of_nat (length up)) then up !! 1%nat else None in
  tc ← ref_truthy current;
  tn ← ref_truthy next_event;
  if negb tc && negb tn then mret none_state
  else if tc then
    mret {| mode := "in_talk"; current := current; next_event := next_event;
            following_event := following_event; seconds_to_start := None |}
  else
    match next_event with
    | None => mret none_state
    | Some nxt =>
        d ← deref_dict nxt;
        s ← lift (getitem d "start");
        delta ← lift (datetime_sub s now);
        let secs := total_seconds_int delta in
        event_type ← lift (strip_lower (py_or (dict_get d "type") (VStr "")));
        let mode :=
          if is_session event_type && (secs <=? 5 * 60)
          then "pre_start"%string else "normal"%string in
        mret {| mode := mode; current := None; next_event := Some nxt;
                following_event := following_event;
                seconds_to_start := Some (Z.max secs 0) |}
    end.

(** [compute_display_state] on a reference [schedule] to the list object.
    The loop walks the items the list holds when the loop starts: its body
    has no statement that assigns to that list. *)
Definition ref_compute_display_state (schedule : loc) (now : Z)
  : M (DisplayState loc) :=
  upcoming ← new_list;
  items ← deref_list schedule;
  current ← ref_scan now upcoming items None;
  up ← deref_list upcoming;
  ref_display_state now current up.

(** A computation that only reads, and only objects of [X]: on every heap
    that agrees with [h0] on [X] it gives one and the same result, and
    the heap back. *)
Definition reads_only {A : Type} (h0 : heap) (X : list loc) (m : M A) : Prop :=
  ∃ r, ∀ h, (∀ l, l ∈ X → h !! l = h0 !! l) → m h = (r, h).

(** The dict a reference points to in [h] (the empty dict when it points
    to none), and a display state with its references read in [h]. *)
Definition dict_at (h : heap) (l : loc) : Event :=
  match h !! l with
  | Some (ODict d) => d
  | _ => ∅
  end.

Definition state_at (h : heap) (st : DisplayState loc) : DisplayState Event :=
  {| mode := mode st;
     current := dict_at h <$> current st;
     next_event := dict_at h <$> next_event st;
     following_event := dict_at h <$> following_event st;
     seconds_to_start := seconds_to_start st |}.

(** Every reference the caller passes points to an object: the schedule
    to a list, each of its items to some object. *)
Definition valid_refs (h : heap) (schedule : loc) : Prop :=
  ∃ items, h !! schedule = Some (OList items) ∧ ∀ l, l ∈ items → is_Some (h !! l).

(** The events a display state refers to. *)
Definition events_of {E : Type} (st : DisplayState E) : list E :=
  option_list (current st) ++ option_list (next_event st)
  ++ option_list (following_event st).

(** The demo schedule as objects: the talk at 1, the break at 2, the list
    at 3. *)
Definition demo_heap : heap :=
  <[1%positive := ODict demo_talk]>
  (<[2%positive := ODict demo_break]>
  (<[3%positive := OList [1%positive; 2%positive]]> ∅)).

(** ** [load_schedule] *)

(** What the loader and the renderer take from Python's library, as
    parameters: the parsers [datetime.strptime(s, '%Y-%m-%d').date()] (a
    day, as its ordinal), [datetime.strptime(s, '%H:%M').time()] (an hour
    and a minute) and [int(s)], each [None] where Python raises
    [ValueError]; [datetime.date.today()], which the module reads once
    into [CONFERENCE_DATE]; [str] of a date and of a datetime; and the en
    dash of two label texts, a character above code point 255. The time
    parser returns an hour below 24 and a minute below 60. *)
Class PyLib : Type := {
  strptime_date : string → option Z;
  strptime_time : string → option (Z * Z);
  int_of_str : string → option Z;
  CONFERENCE_DATE : Z;
  str_of_date : Z → string;
  str_of_datetime : Z → string;
  EN_DASH : string;
  strptime_time_range : ∀ s h m,
    strptime_time s = Some (h, m) → 0 <= h < 24 ∧ 0 <= m < 60
}.

(** A row of [csv.DictReader]: the text of each column that has one.
    [row.get(k)] is [None] for a column the file lacks and for a field a
    short line lacks. *)
Abbreviation Row := (gmap string string).

(** Truth value of [None] or a string. *)
Definition is_truthy (o : option string) : bool :=
  match o with
  | Some s => negb (String.eqb s "")
  | None => false
  end.

(** [o or dflt] *)
Definition str_or (o : option string) (dflt : string) : string :=
  if is_truthy o then default dflt o else dflt.

(** [datetime.timedelta(minutes=n)]: [OverflowError], here [None], when
    the days of the duration exceed 999999999 in magnitude. *)
Definition MAX_DELTA_DAYS : Z := 999999999.

Definition timedelta_of_minutes (n : Z) : option Z :=
  let days := timedelta_minutes n / 86400000000 in
  if (- MAX_DELTA_DAYS <=? days) && (days <=? MAX_DELTA_DAYS)
  then Some (timedelta_minutes n) else None.

(** [t + td] for a datetime: [OverflowError], here [None], when the sum
    leaves the years 1 to 9999, the days of ordinal 1 to 3652059. *)
Definition MAX_ORDINAL : Z := 3652059.

Definition datetime_add (t td : Z) : option Z :=
  let r := t + td in
  if (1 * 86400000000 <=? r) && (r <? (MAX_ORDINAL + 1) * 86400000000)
  then Some r else None.

(** What the loop body does with one row: [continue], append an event,
    or raise an exception that the statements of the body do not catch. *)
Inductive row_outcome : Type :=
| Skipped
| Loaded (e : Event)
| Failed.

Definition load_row `{PyLib} (track_name : option string) (row : Row) : row_outcome :=
  let row_track := row !! "Track" in
  if is_truthy track_name && is_truthy row_track
     && negb (String.eqb (strip (str_or row_track "")) (str_or track_name ""))
  then Skipped
  else
    let date_str := strip (str_or (row !! "Date") "") in
    match (if negb (String.eqb date_str "") then strptime_date date_str
           else Some CONFERENCE_DATE) with
    | None => Skipped
    | Some date_obj =>
        let time_str := strip (str_or (row !! "Start Time") "") in
        if String.eqb time_str "" then Skipped
        else
          match strptime_time time_str with
          | None => Skipped
          | Some (h, m) =>
              let start_datetime := combine date_obj h m in
              let duration_str := strip (str_or (row !! "Duration") "") in
              if String.eqb duration_str "" then Skipped
              else
                match int_of_str duration_str with
                | None => Skipped
                | Some duration_minutes =>
                    match timedelta_of_minutes duration_minutes with
                    | None => Failed
                    | Some td =>
                        match datetime_add start_datetime td with
                        | None => Failed
                        | Some end_datetime =>
                            let speaker := strip (str_or (row !! "Speaker") "") in
                            let title :=
                              strip (str_or (row !! "Talk Title")
                                       (str_or (row !! "Title")
                                          (str_or (row !! "Speaker/Title") ""))) in
                            let synopsis := strip (str_or (row !! "Synopsis") "") in
                            let event_type := strip (str_or (row !! "Type") "Talk") in
                            Loaded
                              (loaded_event
                                 (if is_truthy row_track
                                  then Some (strip (str_or row_track "")) else None)
                                 date_obj event_type start_datetime end_datetime
                                 speaker title synopsis)
                        end
                    end
                end
          end
    end.

(** [for row in reader], with [schedule] the list built so far; [None]
    when a row fails. *)
Fixpoint load_rows `{PyLib} (track_name : option string) (rows : list Row)
    (schedule : list Event) : option (list Event) :=
  match rows with
  | [] => Some schedule
  | row :: rest =>
      match load_row track_name row with
      | Skipped => load_rows track_name rest schedule
      | Loaded e => load_rows track_name rest (schedule ++ [e])
      | Failed => None
      end
  end.

(** [schedule.sort(key=lambda e: e['start'])]: the stable sort by start.
    There is one stable sort of a list by a key; it is written here by
    insertion. *)
Fixpoint insert_by_start (e : Event) (sorted : list Event) : list Event :=
  match sorted with
  | [] => [e]
  | x :: rest =>
      if start e <=? start x then e :: sorted else x :: insert_by_start e rest
  end.

Definition sort_by_start (schedule : list Event) : list Event :=
  foldr insert_by_start [] schedule.

(** [load_schedule]. The file is given as the rows [csv.DictReader]
    yields, or [None] when opening or reading it raises. Both [except]
    clauses print a message and return the empty list; the messages are
    not modelled. *)
Definition load_schedule `{PyLib} (source : option (list Row))
    (track_name : option string) : list Event :=
  match source with
  | None => []
  | Some rows =>
      match load_rows track_name rows [] with
      | None => []
      | Some schedule => sort_by_start schedule
      end
  end.

(** The schedule is in ascending order of start. *)
Fixpoint sorted_by_start (schedule : list Event) : bool :=
  match schedule with
  | [] => true
  | e :: rest =>
      forallb (fun e' => start e <=? start e') rest && sorted_by_start rest
  end.

(** The rows of a file by what the loop does with them. *)
Definition row_fails `{PyLib} (track_name : option string) (row : Row) : bool :=
  match load_row track_name row with
  | Failed => true
  | _ => false
  end.

Definition row_event `{PyLib} (track_name : option string) (row : Row) : option Event :=
  match load_row track_name row with
  | Loaded e => Some e
  | _ => None
  end.

(** The events of the rows that load, in row order. *)
Definition row_events `{PyLib} (track_name : option string) (rows : list Row)
  : list Event :=
  omap (row_event track_name) rows.

(** A row the loop skips for its content: a date that does not parse, a
    start time or a duration that is missing, blank or does not parse. *)
Definition malformed `{PyLib} (row : Row) : bool :=
  let date_str := strip (str_or (row !! "Date") "") in
  let time_str := strip (str_or (row !! "Start Time") "") in
  let duration_str := strip (str_or (row !! "Duration") "") in
  (negb (String.eqb date_str "") && negb (bool_decide (is_Some (strptime_date date_str))))
  || String.eqb time_str "" || negb (bool_decide (is_Some (strptime_time time_str)))
  || String.eqb duration_str "" || negb (bool_decide (is_Some (int_of_str duration_str))).

(** The events of [schedule] that start at [t], in schedule order. *)
Definition starting_at (t : Z) (schedule : list Event) : list Event :=
  List.filter (fun e => start e =? t) schedule.

(** [dt.strftime('%H:%M')] *)
Definition strftime_HM (t : Z) : string :=
  (fmt_02d (t / 3600000000 mod 24) ++ ":" ++ fmt_02d (t / 60000000 mod 60))%string.

(** A library for the examples: it parses the texts the example rows
    hold. *)
Definition assoc {A : Type} (table : list (string * A)) (s : string) : option A :=
  snd <$> List.find (fun kv => String.eqb (fst kv) s) table.

Definition demo_times : list (string * (Z * Z)) :=
  [("09:00", (9, 0)); ("09:30", (9, 30)); ("9:5", (9, 5)); ("23:59", (23, 59))]%string.

Definition demo_ints : list (string * Z) :=
  [("30", 30); ("15", 15); ("0", 0); ("-5", -5);
   ("9999999999999", 9999999999999)]%string.

Definition demo_row (track start_time duration type : string) : Row :=
  <["Track" := track]> (<["Start Time" := start_time]>
  (<["Duration" := duration]> (<["Type" := type]>
  (<["Speaker" := "Ada"%string]> (<["Talk Title" := "Engines"%string]> ∅))))).

Definition demo_lib : PyLib.
Proof.
  refine {| strptime_date := assoc [("2025-07-03"%string, 739435)];
            strptime_time := assoc demo_times;
            int_of_str := assoc demo_ints;
            CONFERENCE_DATE := 739435;
            str_of_date := fun _ => "2025-07-03"%string;
            str_of_datetime := fun _ => "2025-07-03 09:00:00"%string;
            EN_DASH := "-"%string |}.
  intros s h m. unfold assoc, demo_times. cbn [List.find fst snd].
  repeat (destruct (String.eqb _ s); [intros [= <- <-]; lia|]).
  discriminate.
Defined.

(** The rows of an example file, for the track "STUDIO A": a break at
    09:30, a talk of another track, a talk at 09:00 and a row without
    start time. *)
Definition demo_rows : list Row :=
  [demo_row "STUDIO A" "09:30" "15" "Break";
   demo_row "STUDIO B" "09:00" "30" "Talk";
   demo_row " STUDIO A " "09:00" "30" "";
   demo_row "STUDIO A" "" "30" "Talk"]%string.

Definition demo_loaded_talk : Event :=
  loaded_event (Some "STUDIO A") 739435 "Talk" (combine 739435 9 0)
    (combine 739435 9 0 + timedelta_minutes 30) "Ada" "Engines" "".

Definition demo_loaded_break : Event :=
  loaded_event (Some "STUDIO A") 739435 "Break" (combine 739435 9 30)
    (combine 739435 9 30 + timedelta_minutes 15) "Ada" "Engines" "".

(** A row whose duration no [timedelta] holds, and a row with a short
    start time and a negative duration. *)
Definition demo_failing_row : Row :=
  demo_row "STUDIO A" "09:00" "9999999999999" "Talk".

Definition demo_short_row : Row := demo_row "STUDIO A" "9:5" "-5" "Talk".

Definition demo_short_event : Event :=
  loaded_event (Some "STUDIO A") 739435 "Talk" (combine 739435 9 5)
    (combine 739435 9 5 + timedelta_minutes (-5)) "Ada" "Engines" "".

(** A schedule that is not sorted: the break of 09:30 before the talk of
    09:00. *)
Definition demo_unsorted : list Event := [demo_break; demo_talk].

(** An event dict without ['start'], and one without ['end']. *)
Definition demo_no_start : Event := delete "start" demo_talk.

Definition demo_no_end : Event := delete "end" demo_talk.

(** ** [SpeakerDisplayApp]: the widgets and [update] *)

Definition SCHEDULE_FILE : string := "example.csv".
Definition PALETTE_BASE_BG : string := "#f6c049".
Definition PALETTE_TALK_BG : string := "#f7931e".
Definition PALETTE_TEXT_DARK : string := "#5b3b00".
Definition PALETTE_TEXT_LIGHT : string := "#ffffff".

(** The middle dot of one label text, U+00B7, and the line feed. *)
Definition MIDDLE_DOT : string := String (ascii_of_nat 183) EmptyString.
Definition LF : string := String (ascii_of_nat 10) EmptyString.

(** What the window shows: the text and the colours of the five labels,
    the background of the root window, and the delays of the callbacks
    registered with [root.after]. *)
Record Label : Type := mkLabel {
  l_text : string;
  l_fg : string;
  l_bg : string
}.

Inductive label_id : Type := Header | Status | Title | Info | Extra.

Record Widgets : Type := mkWidgets {
  root_bg : string;
  header_label : Label;
  status_label : Label;
  title_label : Label;
  info_label : Label;
  extra_label : Label;
  after_calls : list Z
}.

Definition get_label (w : Widgets) (id : label_id) : Label :=
  match id with
  | Header => header_label w
  | Status => status_label w
  | Title => title_label w
  | Info => info_label w
  | Extra => extra_label w
  end.

Definition set_label (w : Widgets) (id : label_id) (l : Label) : Widgets :=
  match id with
  | Header => mkWidgets (root_bg w) l (status_label w) (title_label w)
                (info_label w) (extra_label w) (after_calls w)
  | Status => mkWidgets (root_bg w) (header_label w) l (title_label w)
                (info_label w) (extra_label w) (after_calls w)
  | Title => mkWidgets (root_bg w) (header_label w) (status_label w) l
               (info_label w) (extra_label w) (after_calls w)
  | Info => mkWidgets (root_bg w) (header_label w) (status_label w) (title_label w)
              l (extra_label w) (after_calls w)
  | Extra => mkWidgets (root_bg w) (header_label w) (status_label w) (title_label w)
               (info_label w) l (after_calls w)
  end.

(** A method of the application: it reads and writes the widgets, and
    leaves them as they are at the point where it raises. *)
Definition UI (A : Type) : Type := Widgets → result A * Widgets.

#[global] Instance UI_ret : MRet UI := fun A a w => (Ok a, w).
#[global] Instance UI_bind : MBind UI := fun A B f m w =>
  match m w with
  | (Ok a, w') => f a w'
  | (Raise e, w') => (Raise e, w')
  end.

Definition ui_lift {A : Type} (r : result A) : UI A := fun w => (r, w).

(** [label.config(text=s)], [label.config(bg=bg, fg=fg)],
    [root.configure(bg=bg)] and [root.after(ms, self.update)]. *)
Definition config_text (id : label_id) (s : string) : UI unit := fun w =>
  (Ok tt, set_label w id (mkLabel s (l_fg (get_label w id)) (l_bg (get_label w id)))).

Definition config_colors (id : label_id) (bg fg : string) : UI unit := fun w =>
  (Ok tt, set_label w id (mkLabel (l_text (get_label w id)) fg bg)).

Definition root_configure (bg : string) : UI unit := fun w =>
  (Ok tt, mkWidgets bg (header_label w) (status_label w) (title_label w)
            (info_label w) (extra_label w) (after_calls w)).

Definition root_after (ms : Z) : UI unit := fun w =>
  (Ok tt, mkWidgets (root_bg w) (header_label w) (status_label w) (title_label w)
            (info_label w) (extra_label w) (after_calls w ++ [ms])).

Definition _apply_theme (bg title_fg body_fg : string) (extra_fg : option string)
  : UI unit :=
  let extra_fg := default body_fg extra_fg in
  _ ← root_configure bg;
  _ ← config_colors Header bg body_fg;
  _ ← config_colors Status bg body_fg;
  _ ← config_colors Title bg title_fg;
  _ ← config_colors Info bg body_fg;
  config_colors Extra bg extra_fg.

(** [str(v)], as an f-string and a label take it. *)
Definition py_str `{PyLib} (v : value) : string :=
  match v with
  | VNone => "None"
  | VStr s => s
  | VDate d => str_of_date d
  | VDatetime t => str_of_datetime t
  end.

(** [str(n)] for an integer. *)
Definition str_of_int (n : Z) : string := NilZero.string_of_int (Z.to_int n).

(** [d[k] or ''] *)
Definition item_or_empty (d : Event) (k : string) : result value :=
  v ← getitem d k; Ok (py_or v (VStr "")).

(** [v.strftime('%H:%M')]: a date has the method too and is at midnight;
    [None] and [str] have not. *)
Definition strftime_of (v : value) : result string :=
  match v with
  | VDatetime t => Ok (strftime_HM t)
  | VDate _ => Ok "00:00"%string
  | _ => Raise AttributeError
  end.

(** [d[k].strftime('%H:%M')] *)
Definition item_strftime (d : Event) (k : string) : result string :=
  v ← getitem d k; strftime_of v.

(** [f"{speaker}\n{title}" if speaker else title] *)
Definition main_text `{PyLib} (speaker title : value) : string :=
  if truthy speaker then (py_str speaker ++ LF ++ py_str title)%string
  else py_str title.

(** The dict a variable holds, when the variable is true in a condition. *)
Definition if_dict (o : option Event) : option Event :=
  if truthy_dict o then o else None.

(** [update]. [clock] is [datetime.datetime.now()]. In the pre-start
    branch [datetime.timedelta(seconds=secs)] is taken not to overflow:
    in mode ['pre_start'] the engine gives at most 300 seconds. *)
Definition update `{PyLib} (schedule : list Event) (clock : Z) : UI unit :=
  let now := clock - clock mod 1000000 in
  match schedule with
  | [] =>
      _ ← config_text Status "FAIL-SAFE: No schedule loaded";
      _ ← config_text Title "Waiting for schedule...";
      _ ← config_text Info
            ("Ensure " ++ SCHEDULE_FILE ++ " is present and formatted correctly.")%string;
      _ ← config_text Extra "";
      root_after 1000
  | _ :: _ =>
      state ← ui_lift (compute_display_state schedule now);
      _ ← (if String.eqb (mode state) "none" then
             _ ← _apply_theme PALETTE_BASE_BG PALETTE_TEXT_DARK PALETTE_TEXT_DARK None;
             _ ← config_text Status "No more events in this room today";
             _ ← config_text Title "Thank you for attending";
             _ ← config_text Info "";
             config_text Extra ""
           else
             match (if String.eqb (mode state) "in_talk"
                    then if_dict (current state) else None) with
             | Some cur =>
                 speaker ← ui_lift (item_or_empty cur "speaker");
                 title ← ui_lift (item_or_empty cur "title");
                 synopsis ← ui_lift (item_or_empty cur "synopsis");
                 end_time_str ← ui_lift (item_strftime cur "end");
                 _ ← _apply_theme PALETTE_TALK_BG PALETTE_TEXT_LIGHT PALETTE_TEXT_LIGHT None;
                 _ ← config_text Status "Now on stage";
                 _ ← config_text Title (main_text speaker title);
                 _ ← config_text Info ("Scheduled to end at " ++ end_time_str)%string;
                 config_text Extra (py_str synopsis)
             | None =>
             match (if String.eqb (mode state) "pre_start"
                    then if_dict (next_event state) else None) with
             | Some nxt =>
                 speaker ← ui_lift (item_or_empty nxt "speaker");
                 title ← ui_lift (item_or_empty nxt "title");
                 synopsis ← ui_lift (item_or_empty nxt "synopsis");
                 start_time_str ← ui_lift (item_strftime nxt "start");
                 _ ← _apply_theme PALETTE_TALK_BG PALETTE_TEXT_LIGHT PALETTE_TEXT_LIGHT None;
                 _ ← config_text Status
                       ("Starting soon " ++ EN_DASH ++ " "
                        ++ str_of_int (minutes_remaining state) ++ " minute warning")%string;
                 _ ← config_text Title (main_text speaker title);
                 _ ← config_text Info
                       ("Scheduled start: " ++ start_time_str ++ "  " ++ MIDDLE_DOT
                        ++ "  T-minus " ++ countdown_str state)%string;
                 config_text Extra (py_str synopsis)
             | None =>
             match (if String.eqb (mode state) "normal"
                    then if_dict (next_event state) else None) with
             | Some nxt =>
                 speaker ← ui_lift (item_or_empty nxt "speaker");
                 title ← ui_lift (item_or_empty nxt "title");
                 start_time_str ← ui_lift (item_strftime nxt "start");
                 _ ← _apply_theme PALETTE_BASE_BG PALETTE_TEXT_DARK PALETTE_TEXT_DARK None;
                 _ ← config_text Status "Upcoming in this room";
                 _ ← config_text Title (main_text speaker title);
                 _ ← config_text Info ("Starts at " ++ start_time_str)%string;
                 match if_dict (following_event state) with
                 | Some following =>
                     f_speaker ← ui_lift (item_or_empty following "speaker");
                     f_title ← ui_lift (item_or_empty following "title");
                     f_start ← ui_lift (item_strftime following "start");
                     config_text Extra
                       (if truthy f_speaker
                        then ("Following: " ++ py_str f_speaker ++ " " ++ EN_DASH ++ " "
                              ++ py_str f_title ++ " (" ++ f_start ++ ")")%string
                        else ("Following: " ++ py_str f_title ++ " (" ++ f_start ++ ")")%string)
                 | None => config_text Extra ""
                 end
             | None =>
                 _ ← _apply_theme PALETTE_BASE_BG PALETTE_TEXT_DARK PALETTE_TEXT_DARK None;
                 _ ← config_text Status "Schedule state unknown";
                 _ ← config_text Title "";
                 _ ← config_text Info "";
                 config_text Extra ""
             end end end);
      root_after 1000
  end.

(** The widgets [__init__] builds before its first [update]. *)
Definition init_widgets (track_name : option string) : Widgets :=
  let label s := mkLabel s PALETTE_TEXT_DARK PALETTE_BASE_BG in
  mkWidgets PALETTE_BASE_BG
    (label (if is_truthy track_name
            then ("Track: " ++ default "" track_name)%string
            else "Upcoming in this room"%string))
    (label "") (label "") (label "") (label "") [].

(** [SpeakerDisplayApp(root, schedule_file, track_name)], with the file
    given as for [load_schedule]. *)
Definition app_init `{PyLib} (source : option (list Row)) (track_name : option string)
    (clock : Z) : result unit * Widgets :=
  update (load_schedule source track_name) clock (init_widgets track_name).

(** An event the renderer can show: well typed, with texts (or [None])
    under ['speaker'], ['title'] and ['synopsis']. *)
Definition has_text (e : Event) (k : string) : bool :=
  match e !! k with
  | Some (VStr _) | Some VNone => true
  | _ => false
  end.

Definition displayable (e : Event) : bool :=
  well_typed e && has_text e "speaker" && has_text e "title" && has_text e "synopsis".

(** The texts of the four labels [update] writes. *)
Definition texts (w : Widgets) : list string :=
  [l_text (status_label w); l_text (title_label w);
   l_text (info_label w); l_text (extra_label w)].

(** The colours of the window. *)
Definition colours (w : Widgets) : list string :=
  root_bg w :: flat_map (fun id => [l_bg (get_label w id); l_fg (get_label w id)])
                 [Header; Status; Title; Info; Extra].

(** ** The float of [total_seconds()] *)

Lemma div_nearest_even_bounds (a b : Z) :
  0 <= a → 0 < b →
  a / b <= div_nearest_even a b <= a / b + 1 ∧
  - b <= 2 * (div_nearest_even a b * b - a) <= b.
Proof.
  intros Ha Hb. unfold div_nearest_even.
  pose proof (Z.div_mod a b ltac:(lia)) as Hdm.
  pose proof (Z.mod_pos_bound a b Hb) as Hr.
  set (q := a / b) in *. set (r := a mod b) in *.
  destruct (Z.ltb_spec (2 * r) b); [split; nia|].
  destruct (Z.ltb_spec b (2 * r)); [split; nia|].
  destruct (Z.even q); split; nia.
Qed.

Lemma ilog2_ratio_below (n d k : Z) :
  0 < n → 0 < d → 0 <= k → n < 2 ^ k * d → ilog2_ratio n d < k.
Proof.
  intros Hn Hd Hk Hlt. unfold ilog2_ratio.
  destruct (Z.leb_spec d n) as [Hle|Hgt].
  - assert (Hq : 0 < n / d) by (apply Z.div_str_pos; lia).
    apply Z.log2_lt_pow2; [exact Hq|].
    apply Z.div_lt_upper_bound; [lia|]. rewrite Z.mul_comm. exact Hlt.
  - assert (2 <= (d + n - 1) / n) by (apply Z.div_le_lower_bound; lia).
    pose proof (Z.log2_up_pos ((d + n - 1) / n) ltac:(lia)). lia.
Qed.

Lemma ilog2_ratio_above (n d : Z) :
  0 < d → d <= n →
  0 <= ilog2_ratio n d ∧ 2 ^ ilog2_ratio n d * d <= n.
Proof.
  intros Hd Hle. unfold ilog2_ratio.
  destruct (Z.leb_spec d n) as [_|]; [|lia].
  assert (Hq : 0 < n / d) by (apply Z.div_str_pos; lia).
  split; [apply Z.log2_nonneg|].
  pose proof (Z.log2_spec (n / d) Hq) as [Hlo _].
  pose proof (Z.mul_div_le n d Hd). nia.
Qed.

(** The float is no smaller than the power of two below the quotient. *)
Lemma int_of_float_true_divide_lower (n d : Z) :
  0 < d → d <= n →
  2 ^ ilog2_ratio n d <= int_of_float (true_divide n d).
Proof.
  intros Hd Hle. destruct (ilog2_ratio_above n d Hd Hle) as [Hp Hpow].
  unfold true_divide, int_of_float. set (p := ilog2_ratio n d) in *.
  destruct (Z.leb_spec 0 (p - 52)) as [He|He].
  - assert (H2e : 0 < 2 ^ (p - 52)) by (apply Z.pow_pos_nonneg; lia).
    destruct (div_nearest_even_bounds n (d * 2 ^ (p - 52)) ltac:(lia) ltac:(nia))
      as [[Hlo _] _].
    assert (Hsplit : 2 ^ p = 2 ^ 52 * 2 ^ (p - 52)).
    { rewrite <- Z.pow_add_r by lia. f_equal. lia. }
    assert (2 ^ 52 <= n / (d * 2 ^ (p - 52))).
    { apply Z.div_le_lower_bound; [nia|]. rewrite Hsplit in Hpow. nia. }
    rewrite Hsplit. nia.
  - assert (H2e : 0 < 2 ^ (- (p - 52))) by (apply Z.pow_pos_nonneg; lia).
    destruct (div_nearest_even_bounds (n * 2 ^ (- (p - 52))) d ltac:(nia) Hd)
      as [[Hlo _] _].
    assert (Hsplit : 2 ^ 52 = 2 ^ p * 2 ^ (- (p - 52))).
    { rewrite <- Z.pow_add_r by lia. f_equal. lia. }
    assert (2 ^ 52 <= n * 2 ^ (- (p - 52)) / d).
    { apply Z.div_le_lower_bound; [lia|]. rewrite Hsplit. nia. }
    apply Z.div_le_lower_bound; [lia|]. rewrite Hsplit in *. nia.
Qed.

Lemma int_of_float_true_divide_nonneg (n d : Z) :
  0 < n → 0 < d → 0 <= int_of_float (true_divide n d).
Proof.
  intros Hn Hd. unfold true_divide, int_of_float.
  destruct (Z.leb_spec 0 (ilog2_ratio n d - 52)) as [He|He].
  - assert (H2e : 0 < 2 ^ (ilog2_ratio n d - 52)) by (apply Z.pow_pos_nonneg; lia).
    destruct (div_nearest_even_bounds n (d * 2 ^ (ilog2_ratio n d - 52))
                ltac:(lia) ltac:(nia)) as [[Hlo _] _].
    pose proof (Z.div_pos n (d * 2 ^ (ilog2_ratio n d - 52)) ltac:(lia) ltac:(nia)).
    nia.
  - assert (H2e : 0 < 2 ^ (- (ilog2_ratio n d - 52))) by (apply Z.pow_pos_nonneg; lia).
    destruct (div_nearest_even_bounds (n * 2 ^ (- (ilog2_ratio n d - 52))) d
                ltac:(nia) Hd) as [[Hlo _] _].
    pose proof (Z.div_pos (n * 2 ^ (- (ilog2_ratio n d - 52))) d ltac:(nia) Hd).
    apply Z.div_pos; lia.
Qed.

(** Below [2^34] the neighbours of the quotient by [10^6] among the
    floats are less than [2 / 10^6] apart, and the float has the integer
    part of the quotient. *)
Lemma int_of_float_true_divide_exact (n : Z) :
  0 < n → n < 2 ^ 34 * 1000000 →
  int_of_float (true_divide n 1000000) = n / 1000000.
Proof.
  intros Hn Hlt.
  pose proof (ilog2_ratio_below n 1000000 34 Hn ltac:(lia) ltac:(lia) Hlt) as Hp.
  unfold true_divide, int_of_float. set (p := ilog2_ratio n 1000000) in *.
  destruct (Z.leb_spec 0 (p - 52)) as [He|He]; [lia|].
  set (s := 2 ^ (- (p - 52))).
  assert (Hs : 2 ^ 19 <= s) by (apply Z.pow_le_mono_r; lia).
  change (2 ^ 19) with 524288 in Hs.
  destruct (div_nearest_even_bounds (n * s) 1000000 ltac:(nia) ltac:(lia))
    as [[Hlo _] [_ Hup]].
  set (m := div_nearest_even (n * s) 1000000) in *.
  pose proof (Z.div_mod n 1000000 ltac:(lia)) as Hdm.
  pose proof (Z.mod_pos_bound n 1000000 ltac:(lia)) as Hr.
  set (k := n / 1000000) in *. set (r := n mod 1000000) in *.
  symmetry. apply Z.div_unique with (r := m - k * s); [|lia].
  left. split.
  - assert (k * s <= n * s / 1000000) by (apply Z.div_le_lower_bound; nia).
    lia.
  - nia.
Qed.

Lemma total_seconds_int_opp (td : Z) :
  total_seconds_int (- td) = - total_seconds_int td.
Proof.
  unfold total_seconds_int.
  destruct (Z.eqb_spec td 0) as [->|Hne]; [reflexivity|].
  destruct (Z.eqb_spec (- td) 0); [lia|].
  rewrite Z.abs_opp, Z.sgn_opp. lia.
Qed.

Lemma total_seconds_int_nonneg (td : Z) : 0 <= td → 0 <= total_seconds_int td.
Proof.
  intros H. unfold total_seconds_int.
  destruct (Z.eqb_spec td 0); [lia|].
  rewrite Z.sgn_pos, Z.abs_eq by lia.
  pose proof (int_of_float_true_divide_nonneg td 1000000 ltac:(lia) ltac:(lia)). lia.
Qed.

Lemma total_seconds_negative td : td < 0 → total_seconds_int td <= 0.
Proof.
  intros H. rewrite <- (Z.opp_involutive td), total_seconds_int_opp.
  pose proof (total_seconds_int_nonneg (- td) ltac:(lia)). lia.
Qed.

(** Durations below [2^34] seconds, some 544 years: the seconds are the
    quotient by [10^6]. *)
Lemma total_seconds_int_exact (td : Z) :
  0 <= td < 17179869184000000 → total_seconds_int td = td / 1000000.
Proof.
  intros [H0 Hlt]. unfold total_seconds_int.
  destruct (Z.eqb_spec td 0) as [->|Hne]; [reflexivity|].
  rewrite Z.sgn_pos, Z.abs_eq, Z.mul_1_l by lia.
  apply int_of_float_true_divide_exact; [lia|]. exact Hlt.
Qed.

(** Longer durations count [2^34] seconds or more. *)
Lemma total_seconds_int_large (td : Z) :
  17179869184000000 <= td → 17179869184 <= total_seconds_int td.
Proof.
  intros Hge. unfold total_seconds_int.
  destruct (Z.eqb_spec td 0) as [->|Hne]; [lia|].
  rewrite Z.sgn_pos, Z.abs_eq, Z.mul_1_l by lia.
  pose proof (int_of_float_true_divide_lower td 1000000 ltac:(lia) ltac:(lia)) as Hlow.
  assert (Hp : 34 <= ilog2_ratio td 1000000).
  { destruct (Z.le_gt_cases 34 (ilog2_ratio td 1000000)) as [|Hlt]; [assumption|].
    exfalso. unfold ilog2_ratio in Hlt.
    destruct (Z.leb_spec 1000000 td); [|lia].
    apply Z.log2_lt_pow2 in Hlt; [|apply Z.div_str_pos; lia].
    assert (2 ^ 34 <= td / 1000000) by (apply Z.div_le_lower_bound; lia). lia. }
  assert (2 ^ 34 <= 2 ^ ilog2_ratio td 1000000) by (apply Z.pow_le_mono_r; lia).
  change (2 ^ 34) with 17179869184 in *. lia.
Qed.

Lemma total_seconds_int_whole (secs : Z) :
  0 <= secs < 17179869184 → total_seconds_int (secs * 1000000) = secs.
Proof.
  intros H. rewrite total_seconds_int_exact by lia. apply Z.div_mul. lia.
Qed.

(** ** The loop *)

Section Scan.
Variable now : Z.

Lemma well_typed_fields e :
  well_typed e = true →
  e !! "start" = Some (VDatetime (start e)) ∧
  e !! "end" = Some (VDatetime (end_ e)).
Proof.
  unfold well_typed, has_datetime, start, end_.
  destruct (e !! "start") as [[]|]; simpl; try discriminate.
  destruct (e !! "end") as [[]|]; simpl; try discriminate.
  auto.
Qed.

Lemma well_typed_truthy e : well_typed e = true → truthy_dict (Some e) = true.
Proof.
  intros Hwt. destruct (well_typed_fields e Hwt) as [Hs _].
  simpl. rewrite bool_decide_eq_false_2; [reflexivity|].
  intros ->. rewrite lookup_empty in Hs. discriminate.
Qed.

Lemma is_current_ok e :
  well_typed e = true → is_current e now = Ok (currentb now e).
Proof.
  intros Hwt. destruct (well_typed_fields e Hwt) as [Hs He].
  unfold is_current, getitem, currentb. rewrite Hs. simpl.
  destruct (start e <=? now); simpl; [|reflexivity].
  rewrite He. reflexivity.
Qed.

Lemma is_upcoming_ok e :
  well_typed e = true → is_upcoming e now = Ok (upcomingb now e).
Proof.
  intros Hwt. destruct (well_typed_fields e Hwt) as [Hs _].
  unfold is_upcoming, getitem, upcomingb. rewrite Hs. simpl.
  f_equal. rewrite Z.geb_leb. reflexivity.
Qed.

Lemma scan_body_ok e st :
  well_typed e = true →
  scan_body now e st =
    Ok (mkVars (if currentb now e then Some e else v_current st)
               (if upcomingb now e then v_upcoming st ++ [e] else v_upcoming st)).
Proof.
  intros Hwt. unfold scan_body.
  rewrite (is_current_ok e Hwt), (is_upcoming_ok e Hwt). reflexivity.
Qed.

(** The loop leaves in [current] the last event in progress, if any,
    and appends the upcoming events in order. *)
Lemma scan_ok schedule : ∀ st,
  well_typed_schedule schedule = true →
  scan now schedule st =
    Ok (mkVars (match last (currents schedule now) with
                | Some e => Some e
                | None => v_current st
                end)
               (v_upcoming st ++ upcoming schedule now)).
Proof.
  induction schedule as [|e rest IH]; intros st Hwt.
  - simpl. rewrite app_nil_r. destruct st; reflexivity.
  - simpl in Hwt. apply andb_true_iff in Hwt as [He Hrest].
    cbn [scan]. rewrite (scan_body_ok e st He). cbn [mbind result_bind].
    rewrite (IH _ Hrest). cbn [v_current v_upcoming].
    unfold currents, upcoming. cbn [List.filter].
    f_equal. f_equal.
    + destruct (currentb now e).
      * rewrite last_cons. destruct (last _); reflexivity.
      * reflexivity.
    + destruct (upcomingb now e).
      * rewrite <- app_assoc. reflexivity.
      * reflexivity.
Qed.

Lemma currents_well_typed schedule e :
  well_typed_schedule schedule = true →
  last (currents schedule now) = Some e → well_typed e = true.
Proof.
  intros Hwt Hl. apply last_Some_elem_of in Hl.
  apply list_elem_of_In, filter_In in Hl as [Hin _].
  unfold well_typed_schedule in Hwt. rewrite forallb_forall in Hwt. auto.
Qed.

Lemma upcoming_well_typed schedule e :
  well_typed_schedule schedule = true →
  e ∈ upcoming schedule now → well_typed e = true.
Proof.
  intros Hwt Hin.
  apply list_elem_of_In, filter_In in Hin as [Hin _].
  unfold well_typed_schedule in Hwt. rewrite forallb_forall in Hwt. auto.
Qed.
End Scan.

(** ** The three outcomes of [compute_display_state] *)

Section Outcomes.
Variables (schedule : list Event) (now : Z).
Hypothesis Hwt : well_typed_schedule schedule = true.

Lemma strip_lower_type_ok e :
  well_typed e = true →
  strip_lower (py_or (dict_get e "type") (VStr "")) = Ok (event_type e).
Proof.
  unfold well_typed, event_type, type_text, dict_get, py_or.
  destruct (has_datetime e "start" && has_datetime e "end"); [|discriminate].
  destruct (e !! "type") as [[| s | |]|]; simpl; try discriminate; try reflexivity.
  intros _. destruct (String.eqb_spec s ""); subst; reflexivity.
Qed.

Lemma following_lookup (l : list Event) :
  (if 1 <? Z.of_nat (length l) then l !! 1%nat else None) = l !! 1%nat.
Proof.
  destruct l as [|a [|b l]]; try reflexivity.
  destruct (Z.ltb_spec 1 (Z.of_nat (length (a :: b :: l)))) as [_|Hle];
    [reflexivity|].
  cbn [length] in Hle. lia.
Qed.

(** Some event is in progress: the in-talk slide, for the last of them. *)
Lemma compute_in_talk e :
  last (currents schedule now) = Some e →
  compute_display_state schedule now =
    Ok {| mode := "in_talk"; current := Some e;
          next_event := head (upcoming schedule now);
          following_event := upcoming schedule now !! 1%nat;
          seconds_to_start := None |}.
Proof.
  intros Hlast. unfold compute_display_state.
  rewrite (scan_ok now schedule _ Hwt). cbn [mbind result_bind v_current v_upcoming].
  rewrite Hlast, app_nil_l, following_lookup.
  rewrite (well_typed_truthy e (currents_well_typed now schedule e Hwt Hlast)).
  reflexivity.
Qed.

(** Nothing in progress and nothing to come. *)
Lemma compute_none :
  currents schedule now = [] → upcoming schedule now = [] →
  compute_display_state schedule now = Ok none_state.
Proof.
  intros Hc Hu. unfold compute_display_state.
  rewrite (scan_ok now schedule _ Hwt). cbn [mbind result_bind v_current v_upcoming].
  rewrite Hc, Hu. reflexivity.
Qed.

(** Nothing in progress, [nxt] is the first upcoming event. *)
Lemma compute_between nxt rest :
  currents schedule now = [] → upcoming schedule now = nxt :: rest →
  compute_display_state schedule now =
    Ok {| mode := if is_session (event_type nxt) && (seconds_until nxt now <=? 300)
                  then "pre_start"%string else "normal"%string;
          current := None;
          next_event := Some nxt;
          following_event := head rest;
          seconds_to_start := Some (Z.max (seconds_until nxt now) 0) |}.
Proof.
  intros Hc Hu. unfold compute_display_state.
  rewrite (scan_ok now schedule _ Hwt). cbn [mbind result_bind v_current v_upcoming].
  rewrite Hc, app_nil_l, following_lookup, Hu. cbn [last head truthy_dict negb andb].
  assert (Hn : well_typed nxt = true).
  { apply (upcoming_well_typed now schedule); [exact Hwt|]. rewrite Hu. left. }
  pose proof (well_typed_truthy nxt Hn) as Ht. simpl in Ht. rewrite Ht. cbn [negb].
  destruct (well_typed_fields nxt Hn) as [Hs _].
  unfold getitem. rewrite Hs. cbn [mbind result_bind datetime_sub].
  rewrite (strip_lower_type_ok nxt Hn). cbn [mbind result_bind].
  unfold seconds_until. destruct rest; reflexivity.
Qed.

(** The three cases are exhaustive. *)
Lemma compute_cases :
  (∃ e, last (currents schedule now) = Some e) ∨
  (currents schedule now = [] ∧ upcoming schedule now = []) ∨
  (currents schedule now = [] ∧ ∃ nxt rest, upcoming schedule now = nxt :: rest).
Proof.
  destruct (last (currents schedule now)) as [e|] eqn:Hl; [left; eauto|].
  apply last_None in Hl. right.
  destruct (upcoming schedule now) as [|nxt rest]; [left|right]; eauto.
Qed.
End Outcomes.


(** ** Properties of the display state engine *)

(** Closes an equation, or a strict inequality of [Z], between closed
    terms by evaluation. *)
Ltac vm_refl :=
  lazymatch goal with
  | |- ?l = ?r => exact (@eq_refl _ r <: l = r)
  | |- ?x < ?y => exact (@eq_refl _ Lt <: x < y)
  end.

Lemma elem_of_currents schedule now e :
  e ∈ currents schedule now ↔ e ∈ schedule ∧ currentb now e = true.
Proof. unfold currents. rewrite !list_elem_of_In. apply filter_In. Qed.

Lemma elem_of_upcoming schedule now e :
  e ∈ upcoming schedule now ↔ e ∈ schedule ∧ upcomingb now e = true.
Proof. unfold upcoming. rewrite !list_elem_of_In. apply filter_In. Qed.

Lemma filter_nil_iff {A} (f : A → bool) (l : list A) :
  List.filter f l = [] ↔ ∀ x, x ∈ l → f x = false.
Proof.
  induction l as [|a l IH]; simpl.
  - split; [intros _ x Hx; inversion Hx | reflexivity].
  - destruct (f a) eqn:Hfa.
    + split; [discriminate|]. intros H. specialize (H a (list_elem_of_here a l)).
      congruence.
    + rewrite IH. split.
      * intros H x Hx. inversion Hx; subst; auto.
      * intros H x Hx. apply H. now right.
Qed.

Lemma compute_total schedule now :
  well_typed_schedule schedule = true →
  ∃ st, compute_display_state schedule now = Ok st.
Proof.
  intros Hwt.
  destruct (compute_cases schedule now) as [[e He]|[[Hc Hu]|[Hc (nxt & rest & Hu)]]].
  - rewrite (compute_in_talk schedule now Hwt e He). eauto.
  - rewrite (compute_none schedule now Hwt Hc Hu). eauto.
  - rewrite (compute_between schedule now Hwt nxt rest Hc Hu). eauto.
Qed.

(** C1. When exactly one event [e] of a well-typed schedule is in
    progress at [now], that is when the events in progress are the list
    [[e]], the call returns mode ['in_talk'] with [current = e] and no
    [seconds_to_start], whatever the upcoming events are. The schedule
    need not be sorted for this. *)
Theorem single_current_in_talk (schedule : list Event) (now : Z) (e : Event) :
  well_typed_schedule schedule = true →
  currents schedule now = [e] →
  ∃ st, compute_display_state schedule now = Ok st ∧
        mode st = "in_talk"%string ∧ current st = Some e ∧
        seconds_to_start st = None.
Proof.
  intros Hwt Hc.
  assert (Hl : last (currents schedule now) = Some e) by (rewrite Hc; reflexivity).
  rewrite (compute_in_talk schedule now Hwt e Hl).
  eexists. split; [reflexivity|]. simpl. auto.
Qed.

Lemma single_current_in_talk_witness :
  ∃ st, compute_display_state demo_schedule (combine 0 9 15) = Ok st ∧
        mode st = "in_talk"%string ∧ current st = Some demo_talk ∧
        seconds_to_start st = None.
Proof.
  apply (single_current_in_talk demo_schedule (combine 0 9 15) demo_talk);
    vm_refl.
Defined.

(** C3. When two or more events of a well-typed schedule are in progress
    at [now], the call returns mode ['in_talk'] with, as [current], the
    last of them in schedule order; the first match is not returned when
    it differs from the last. *)
Theorem overlap_last_wins (schedule : list Event) (now : Z) (e : Event) :
  well_typed_schedule schedule = true →
  (2 ≤ length (currents schedule now))%nat →
  last (currents schedule now) = Some e →
  ∃ st, compute_display_state schedule now = Ok st ∧
        mode st = "in_talk"%string ∧ current st = Some e ∧
        ∀ e1, head (currents schedule now) = Some e1 → e1 ≠ e →
              current st ≠ Some e1.
Proof.
  intros Hwt _ Hl.
  rewrite (compute_in_talk schedule now Hwt e Hl).
  eexists. split; [reflexivity|]. simpl. repeat split.
  intros e1 _ Hne Heq. congruence.
Qed.

Lemma overlap_last_wins_witness :
  ∃ st, compute_display_state [demo_talk; demo_overlap] (combine 0 9 25) = Ok st ∧
        mode st = "in_talk"%string ∧ current st = Some demo_overlap ∧
        ∀ e1, head (currents [demo_talk; demo_overlap] (combine 0 9 25)) = Some e1 →
              e1 ≠ demo_overlap → current st ≠ Some e1.
Proof.
  apply (overlap_last_wins [demo_talk; demo_overlap] (combine 0 9 25) demo_overlap).
  - vm_refl.
  - vm_compute. lia.
  - vm_refl.
Defined.

(** Every field of the result but the mode and the countdown, for a
    well-typed schedule. *)
Lemma compute_fields (schedule : list Event) (now : Z) :
  well_typed_schedule schedule = true →
  ∃ st, compute_display_state schedule now = Ok st ∧
        current st = last (currents schedule now) ∧
        next_event st = head (upcoming schedule now) ∧
        following_event st = upcoming schedule now !! 1%nat ∧
        (mode st = "in_talk"%string ↔ currents schedule now ≠ []) ∧
        (mode st = "none"%string ↔
           currents schedule now = [] ∧ upcoming schedule now = []).
Proof.
  intros Hwt.
  destruct (compute_cases schedule now) as [[e He]|[[Hc Hu]|[Hc (nxt & rest & Hu)]]].
  - rewrite (compute_in_talk schedule now Hwt e He).
    eexists. split; [reflexivity|]. cbn [current next_event following_event mode].
    assert (Hne : currents schedule now ≠ []) by (intros E; rewrite E in He; discriminate).
    repeat split; auto; try discriminate. intros [E _]. contradiction.
  - rewrite (compute_none schedule now Hwt Hc Hu).
    eexists. split; [reflexivity|]. rewrite Hc, Hu. simpl.
    repeat split; auto; try discriminate. intros H. contradiction.
  - rewrite (compute_between schedule now Hwt nxt rest Hc Hu).
    eexists. split; [reflexivity|]. rewrite Hc, Hu.
    cbn [current next_event following_event mode last head].
    repeat split; auto; try (destruct rest; reflexivity);
      destruct (is_session _ && _); try discriminate; try contradiction;
      intros [_ ?]; discriminate.
Qed.

Lemma last_currents_current schedule now e :
  last (currents schedule now) = Some e → e ∈ schedule ∧ currentb now e = true.
Proof. intros Hl. apply elem_of_currents, last_Some_elem_of, Hl. Qed.

(** C4. On every well-typed schedule the call returns a display state,
    in one of the four modes, and raises nothing. For the empty schedule,
    and whenever no event is in progress and none starts at [now] or
    later, the state is the ['none'] state, whose other fields are all
    [None]. *)
Theorem total_and_none (schedule : list Event) (now : Z) :
  well_typed_schedule schedule = true →
  (∃ st, compute_display_state schedule now = Ok st ∧
         (mode st = "none" ∨ mode st = "in_talk" ∨
          mode st = "pre_start" ∨ mode st = "normal")%string) ∧
  (schedule = [] → compute_display_state schedule now = Ok none_state) ∧
  ((∀ e, e ∈ schedule → currentb now e = false ∧ upcomingb now e = false) →
   compute_display_state schedule now = Ok none_state).
Proof.
  intros Hwt. split; [|split].
  - destruct (compute_cases schedule now) as [[e He]|[[Hc Hu]|[Hc (nxt & rest & Hu)]]].
    + rewrite (compute_in_talk schedule now Hwt e He). eexists; split; [reflexivity|].
      simpl; auto.
    + rewrite (compute_none schedule now Hwt Hc Hu). eexists; split; [reflexivity|].
      simpl; auto.
    + rewrite (compute_between schedule now Hwt nxt rest Hc Hu).
      eexists; split; [reflexivity|]. simpl. destruct (is_session _ && _); auto.
  - intros ->. reflexivity.
  - intros Hnone. apply (compute_none schedule now Hwt).
    + apply filter_nil_iff. intros e He. apply Hnone, He.
    + apply filter_nil_iff. intros e He. apply Hnone, He.
Qed.

Lemma total_and_none_witness :
  compute_display_state demo_schedule (combine 0 9 50) = Ok none_state ∧
  compute_display_state [] (combine 0 9 50) = Ok none_state.
Proof.
  split.
  - destruct (total_and_none demo_schedule (combine 0 9 50)) as (_ & _ & Hnone);
      [vm_refl|].
    apply Hnone. intros e He. apply list_elem_of_In in He. simpl in He.
    destruct He as [<-|[<-|[]]]; split; vm_refl.
  - destruct (total_and_none [] (combine 0 9 50)) as (_ & Hempty & _);
      [reflexivity|].
    apply Hempty. reflexivity.
Defined.

Lemma currents_app l1 l2 now :
  currents (l1 ++ l2) now = currents l1 now ++ currents l2 now.
Proof. apply List.filter_app. Qed.

Lemma upcoming_app l1 l2 now :
  upcoming (l1 ++ l2) now = upcoming l1 now ++ upcoming l2 now.
Proof. apply List.filter_app. Qed.

Lemma upcoming_cons e l now :
  upcoming (e :: l) now = if upcomingb now e then e :: upcoming l now else upcoming l now.
Proof. reflexivity. Qed.

Lemma currents_cons e l now :
  currents (e :: l) now = if currentb now e then e :: currents l now else currents l now.
Proof. reflexivity. Qed.

Lemma degenerate_never_current e now :
  end_ e <= start e → currentb now e = false.
Proof. intros H. unfold currentb. lia. Qed.

(** C5. An event [e] with [end <= start] is never returned as [current].
    It is in the upcoming list whenever it starts at [now] or later, and
    is returned as [next_event] when it is the first such event of the
    schedule, and as [following_event] when it is the second. *)
Theorem degenerate_event (schedule : list Event) (now : Z) (e : Event) :
  well_typed_schedule schedule = true →
  end_ e <= start e →
  ∃ st, compute_display_state schedule now = Ok st ∧
        current st ≠ Some e ∧
        (e ∈ schedule → now <= start e → e ∈ upcoming schedule now) ∧
        (∀ l1 l2, schedule = l1 ++ e :: l2 → now <= start e →
                  upcoming l1 now = [] → next_event st = Some e) ∧
        (∀ l1 l2 n, schedule = l1 ++ e :: l2 → now <= start e →
                    upcoming l1 now = [n] → following_event st = Some e).
Proof.
  intros Hwt Hdeg.
  destruct (compute_fields schedule now Hwt) as (st & Hst & Hcur & Hnext & Hfol & _).
  exists st. split; [exact Hst|]. split; [|split; [|split]].
  - rewrite Hcur. intros Hl. apply last_currents_current in Hl as [_ Hc].
    rewrite (degenerate_never_current e now Hdeg) in Hc. discriminate.
  - intros Hin Hle. apply elem_of_upcoming. split; [exact Hin|].
    unfold upcomingb. lia.
  - intros l1 l2 -> Hle Hl1. rewrite Hnext, upcoming_app, Hl1, upcoming_cons.
    replace (upcomingb now e) with true by (unfold upcomingb; lia). reflexivity.
  - intros l1 l2 n -> Hle Hl1. rewrite Hfol, upcoming_app, Hl1, upcoming_cons.
    replace (upcomingb now e) with true by (unfold upcomingb; lia). reflexivity.
Qed.

Lemma degenerate_event_witness :
  ∃ st, compute_display_state [demo_talk; demo_break; demo_degenerate] (combine 0 9 50) = Ok st ∧
        current st ≠ Some demo_degenerate ∧
        next_event st = Some demo_degenerate.
Proof.
  destruct (degenerate_event [demo_talk; demo_break; demo_degenerate]
              (combine 0 9 50) demo_degenerate) as (st & Hst & Hcur & _ & Hnext & _).
  - vm_refl.
  - vm_compute. discriminate.
  - exists st. split; [exact Hst|]. split; [exact Hcur|].
    apply (Hnext [demo_talk; demo_break] []).
    + reflexivity.
    + vm_compute. discriminate.
    + vm_refl.
Defined.

(** C6. The fields of the result by mode, on a well-typed schedule. In
    modes ['pre_start'] and ['normal'], [current] is [None], [next_event]
    is the first event that starts at [now] or later, [following_event]
    the second one if any, and [seconds_to_start] is
    [int(delta.total_seconds())] for the time [delta] from [now] to the
    start of [next_event], which is not below 0. That is the whole seconds
    of [delta] whenever [delta] is below [2^34] seconds, some 544 years,
    and always in mode ['pre_start']. In modes ['in_talk'] and ['none'],
    [seconds_to_start] is [None]; in mode ['none'] the three events are
    [None] too. *)
Theorem mode_field_invariant (schedule : list Event) (now : Z) :
  well_typed_schedule schedule = true →
  ∃ st, compute_display_state schedule now = Ok st ∧
    ((mode st = "pre_start" ∨ mode st = "normal")%string →
       current st = None ∧
       next_event st = head (upcoming schedule now) ∧
       following_event st = upcoming schedule now !! 1%nat ∧
       ∃ nxt, next_event st = Some nxt ∧
              seconds_to_start st = Some (Z.max (seconds_until nxt now) 0) ∧
              Z.max (seconds_until nxt now) 0 = seconds_until nxt now ∧
              0 <= start nxt - now ∧
              (start nxt - now < 17179869184000000 ∨ mode st = "pre_start"%string →
               seconds_to_start st = Some ((start nxt - now) / 1000000))) ∧
    ((mode st = "in_talk" ∨ mode st = "none")%string →
       seconds_to_start st = None) ∧
    (mode st = "none"%string →
       current st = None ∧ next_event st = None ∧ following_event st = None).
Proof.
  intros Hwt.
  destruct (compute_cases schedule now) as [[e He]|[[Hc Hu]|[Hc (nxt & rest & Hu)]]].
  - rewrite (compute_in_talk schedule now Hwt e He).
    eexists. split; [reflexivity|]. cbn [mode current next_event following_event seconds_to_start].
    split; [|split]; try (intros [?|?]; discriminate); try discriminate. auto.
  - rewrite (compute_none schedule now Hwt Hc Hu).
    eexists. split; [reflexivity|]. simpl.
    split; [|split]; try (intros [?|?]; discriminate); auto.
  - rewrite (compute_between schedule now Hwt nxt rest Hc Hu).
    eexists. split; [reflexivity|]. rewrite Hu.
    cbn [mode current next_event following_event seconds_to_start head].
    assert (Hin : nxt ∈ upcoming schedule now) by (rewrite Hu; left).
    apply elem_of_upcoming in Hin as [_ Hup]. unfold upcomingb in Hup.
    assert (Hpos : 0 <= seconds_until nxt now)
      by (unfold seconds_until; apply total_seconds_int_nonneg; lia).
    split; [|split].
    + intros _. split; [reflexivity|]. split; [reflexivity|].
      split; [destruct rest; reflexivity|].
      exists nxt. split; [reflexivity|]. split; [reflexivity|].
      split; [lia|]. split; [lia|].
      intros Hnear. rewrite Z.max_l by lia. f_equal. unfold seconds_until.
      apply total_seconds_int_exact. split; [lia|].
      destruct Hnear as [Hlt|Hpre]; [exact Hlt|].
      destruct (Z.lt_ge_cases (start nxt - now) 17179869184000000) as [Hlt|Hge];
        [exact Hlt|].
      pose proof (total_seconds_int_large _ Hge) as Hbig.
      fold (seconds_until nxt now) in Hbig.
      destruct (Z.leb_spec (seconds_until nxt now) 300) as [|_]; [lia|].
      rewrite andb_false_r in Hpre. discriminate.
    + destruct (is_session _ && _); intros [?|?]; discriminate.
    + destruct (is_session _ && _); discriminate.
Qed.

Lemma mode_field_invariant_witness :
  ∃ st, compute_display_state demo_schedule (combine 0 8 58) = Ok st ∧
        mode st = "pre_start"%string ∧ current st = None ∧
        next_event st = Some demo_talk ∧ following_event st = Some demo_break ∧
        seconds_to_start st = Some 120.
Proof.
  destruct (mode_field_invariant demo_schedule (combine 0 8 58)) as (st & Hst & Hpre & _).
  - vm_refl.
  - exists st. split; [exact Hst|].
    assert (Hm : mode st = "pre_start"%string).
    { assert (Hok : mode <$> (match compute_display_state demo_schedule (combine 0 8 58)
                              with Ok s => Some s | Raise _ => None end)
                    = Some "pre_start"%string) by (vm_refl).
      rewrite Hst in Hok. injection Hok as Hok. exact Hok. }
    destruct (Hpre (or_introl Hm)) as (Hc & Hn & Hf & nxt & Hn' & _ & _ & _ & Hs).
    assert (Hnxt : nxt = demo_talk).
    { rewrite Hn in Hn'. assert (Some nxt = Some demo_talk) as [= ->];
        [rewrite <- Hn'; vm_refl | reflexivity]. }
    subst nxt.
    repeat split; [exact Hm|exact Hc|exact Hn'|rewrite Hf|rewrite (Hs (or_intror Hm))];
      vm_refl.
Defined.

(** From 2^34 seconds on, the float of [total_seconds()] can be the next
    whole number: 17279999999.999999 seconds to the start of the next
    event give [seconds_to_start] 17280000000, not the 17279999999 whole
    seconds of the difference. *)
Lemma mode_field_invariant_counterexample :
  well_typed_schedule [demo_far] = true ∧
  ∃ st, compute_display_state [demo_far] demo_far_now = Ok st ∧
        mode st = "normal"%string ∧
        next_event st = Some demo_far ∧
        start demo_far - demo_far_now = 17279999999999999 ∧
        seconds_to_start st = Some 17280000000 ∧
        seconds_to_start st
        ≠ Some (Z.max ((start demo_far - demo_far_now) / 1000000) 0).
Proof.
  split; [vm_refl|].
  exists {| mode := "normal"; current := None; next_event := Some demo_far;
            following_event := None; seconds_to_start := Some 17280000000 |}.
  split; [vm_refl|]. split; [reflexivity|]. split; [reflexivity|].
  split; [vm_refl|]. split; [reflexivity|].
  cbn [seconds_to_start]. vm_compute. discriminate.
Qed.

Lemma is_session_iff t :
  is_session t = true ↔ t ≠ "break"%string ∧ t ≠ "social"%string.
Proof.
  unfold is_session.
  destruct (String.eqb_spec t "break"), (String.eqb_spec t "social"); simpl;
    split; try discriminate; try tauto; intros [? ?]; contradiction.
Qed.

Lemma case_variant_break s :
  case_variant "break" s = true → lower (strip s) = "break"%string.
Proof.
  intros H.
  do 5 (destruct s as [|? s]; [discriminate H|];
        cbn [case_variant] in H; apply andb_true_iff in H as [Hc H];
        apply orb_true_iff in Hc as [Hc|Hc]; apply Ascii.eqb_eq in Hc; subst).
  all: destruct s; [reflexivity | discriminate H].
Qed.

(** C2. When no event of a well-typed schedule is in progress at [now]
    and [nxt] is the first event that starts at [now] or later, the mode
    is ['pre_start'] exactly when the type of [nxt], trimmed and
    lower-cased, is neither "break" nor "social" and the whole seconds to
    its start are at most 300; otherwise it is ['normal']. At 300 seconds
    a session gives ['pre_start'], at 301 seconds ['normal'], and a type
    that spells "break" in any letter case gives ['normal']. *)
Theorem pre_start_iff (schedule : list Event) (now : Z) (nxt : Event) :
  well_typed_schedule schedule = true →
  currents schedule now = [] →
  head (upcoming schedule now) = Some nxt →
  ∃ st, compute_display_state schedule now = Ok st ∧
    next_event st = Some nxt ∧
    (mode st = "pre_start"%string ↔
       event_type nxt ≠ "break"%string ∧ event_type nxt ≠ "social"%string ∧
       seconds_until nxt now <= 300) ∧
    (mode st = "normal"%string ↔
       ¬ (event_type nxt ≠ "break"%string ∧ event_type nxt ≠ "social"%string ∧
          seconds_until nxt now <= 300)) ∧
    (event_type nxt ≠ "break"%string → event_type nxt ≠ "social"%string →
       seconds_until nxt now = 300 → mode st = "pre_start"%string) ∧
    (seconds_until nxt now = 301 → mode st = "normal"%string) ∧
    (case_variant "break" (type_text nxt) = true → mode st = "normal"%string).
Proof.
  intros Hwt Hc Hhd.
  destruct (upcoming schedule now) as [|n rest] eqn:Hu; [discriminate|].
  injection Hhd as ->.
  rewrite (compute_between schedule now Hwt nxt rest Hc Hu).
  eexists. split; [reflexivity|]. cbn [mode next_event].
  split; [reflexivity|].
  assert (Hdec : is_session (event_type nxt) && (seconds_until nxt now <=? 300) = true ↔
                 event_type nxt ≠ "break"%string ∧ event_type nxt ≠ "social"%string ∧
                 seconds_until nxt now <= 300).
  { rewrite andb_true_iff, is_session_iff, Z.leb_le. tauto. }
  destruct (is_session (event_type nxt) && (seconds_until nxt now <=? 300)) eqn:Hb.
  - destruct Hdec as [Hdec _]. destruct (Hdec eq_refl) as (Hbr & Hso & Hle).
    split; [|split; [|split; [|split]]].
    + split; auto.
    + split; [discriminate|]. intros Hn. exfalso. apply Hn. auto.
    + auto.
    + intros H301. lia.
    + intros Hv. apply case_variant_break in Hv. contradiction.
  - assert (Hn : ¬ (event_type nxt ≠ "break"%string ∧
                    event_type nxt ≠ "social"%string ∧
                    seconds_until nxt now <= 300)).
    { intros H. apply Hdec in H. discriminate. }
    split; [|split; [|split; [|split]]].
    + split; [discriminate|]. intros H. contradiction.
    + split; auto.
    + intros Hbr Hso H300. exfalso. apply Hn. repeat split; auto. lia.
    + auto.
    + auto.
Qed.

Lemma pre_start_iff_witness :
  (∃ st, compute_display_state [demo_talk_905] (combine 0 9 0) = Ok st ∧
         mode st = "pre_start"%string) ∧
  (∃ st, compute_display_state [demo_talk_905] (combine 0 9 0 - 1000000) = Ok st ∧
         mode st = "normal"%string) ∧
  (∃ st, compute_display_state [demo_break_902] (combine 0 9 0) = Ok st ∧
         mode st = "normal"%string).
Proof.
  split; [|split].
  - destruct (pre_start_iff [demo_talk_905] (combine 0 9 0) demo_talk_905)
      as (st & Hst & _ & _ & _ & H300 & _); try (vm_refl).
    exists st. split; [exact Hst|].
    apply H300; vm_compute; try reflexivity; discriminate.
  - destruct (pre_start_iff [demo_talk_905] (combine 0 9 0 - 1000000) demo_talk_905)
      as (st & Hst & _ & _ & _ & _ & H301 & _); try (vm_refl).
    exists st. split; [exact Hst|].
    apply H301; vm_refl.
  - destruct (pre_start_iff [demo_break_902] (combine 0 9 0) demo_break_902)
      as (st & Hst & _ & _ & _ & _ & _ & Hbreak); try (vm_refl).
    exists st. split; [exact Hst|].
    apply Hbreak; vm_refl.
Defined.

Lemma last_app_cons {A} (l1 l2 : list A) (x : A) :
  last (l1 ++ x :: l2) = match last l2 with Some y => Some y | None => Some x end.
Proof.
  induction l1 as [|a l1 IH]; simpl.
  - rewrite last_cons. reflexivity.
  - rewrite last_cons, IH. destruct (last l2); reflexivity.
Qed.

(** C10. An event [e] of a well-typed schedule that starts at the very
    instant [now] and ends later is in progress, so the mode is
    ['in_talk'], not ['pre_start']. It is in the upcoming list as well:
    when no event before it in the schedule starts at [now] or later, it
    is [next_event]; when no event after it in the schedule is in progress
    it is [current]; with both, [next_event] and [current] are the same
    event [e]. *)
Theorem start_instant_in_talk (schedule l1 l2 : list Event) (now : Z) (e : Event) :
  well_typed_schedule schedule = true →
  schedule = l1 ++ e :: l2 →
  start e = now → now < end_ e →
  ∃ st, compute_display_state schedule now = Ok st ∧
        mode st = "in_talk"%string ∧
        seconds_to_start st = None ∧
        e ∈ upcoming schedule now ∧
        (upcoming l1 now = [] → next_event st = Some e) ∧
        (currents l2 now = [] → current st = Some e) ∧
        (upcoming l1 now = [] → currents l2 now = [] →
         current st = Some e ∧ next_event st = current st).
Proof.
  intros Hwt Hsched Hstart Hend.
  assert (Hcur : currentb now e = true) by (unfold currentb; lia).
  assert (Hup : upcomingb now e = true) by (unfold upcomingb; lia).
  assert (Hlast : last (currents schedule now) =
                  match last (currents l2 now) with Some y => Some y | None => Some e end).
  { rewrite Hsched, currents_app, currents_cons, Hcur. apply last_app_cons. }
  assert (Hhead : upcoming schedule now = upcoming l1 now ++ e :: upcoming l2 now).
  { rewrite Hsched, upcoming_app, upcoming_cons, Hup. reflexivity. }
  assert (∃ e', last (currents schedule now) = Some e') as [e' He'].
  { rewrite Hlast. destruct (last (currents l2 now)); eauto. }
  rewrite (compute_in_talk schedule now Hwt e' He').
  eexists. split; [reflexivity|].
  cbn [mode seconds_to_start next_event current].
  assert (Hnext : upcoming l1 now = [] → head (upcoming schedule now) = Some e).
  { intros Hl1. rewrite Hhead, Hl1. reflexivity. }
  assert (Hc2 : currents l2 now = [] → Some e' = Some e).
  { intros Hl2. rewrite <- He', Hlast, Hl2. reflexivity. }
  repeat split; auto.
  - apply elem_of_upcoming. split; [|exact Hup].
    rewrite Hsched. apply list_elem_of_In, in_elt.
  - rewrite Hnext, Hc2; auto.
Qed.

Lemma start_instant_in_talk_witness :
  ∃ st, compute_display_state demo_schedule (combine 0 9 30) = Ok st ∧
        mode st = "in_talk"%string ∧
        current st = Some demo_break ∧ next_event st = current st.
Proof.
  destruct (start_instant_in_talk demo_schedule [demo_talk] [] (combine 0 9 30) demo_break)
    as (st & Hst & Hmode & _ & _ & _ & _ & Hsame);
    try (vm_refl).
  exists st. split; [exact Hst|]. split; [exact Hmode|].
  apply Hsame; vm_refl.
Defined.

(** With a tie at 09:30 the later of the two events in progress is
    [current] while the earlier one is [next_event]. *)
Example tie_at_start_instant :
  ∃ st, compute_display_state [demo_break; demo_tie] (combine 0 9 30) = Ok st ∧
        mode st = "in_talk"%string ∧
        current st = Some demo_tie ∧ next_event st = Some demo_break.
Proof.
  exists {| mode := "in_talk"; current := Some demo_tie;
            next_event := Some demo_break; following_event := Some demo_tie;
            seconds_to_start := None |}.
  split; [vm_refl|]. repeat split.
Qed.

(** ** What a call reads and returns *)

Lemma scan_body_inv now e st st' :
  scan_body now e st = Ok st' →
  (v_current st' = v_current st ∨ v_current st' = Some e) ∧
  (v_upcoming st' = v_upcoming st ∨ v_upcoming st' = v_upcoming st ++ [e]).
Proof.
  unfold scan_body.
  destruct (is_current e now) as [c|]; cbn [mbind result_bind]; [|discriminate].
  destruct (is_upcoming e now) as [u|]; cbn [mbind result_bind]; [|discriminate].
  intros [= <-]. destruct c, u; simpl; auto.
Qed.

(** Whatever the loop leaves in its variables comes from the schedule,
    also on schedules that are not well typed. *)
Lemma scan_inv now schedule : ∀ st st',
  scan now schedule st = Ok st' →
  (∀ x, v_current st' = Some x → x ∈ schedule ∨ v_current st = Some x) ∧
  (∀ x, x ∈ v_upcoming st' → x ∈ schedule ∨ x ∈ v_upcoming st).
Proof.
  induction schedule as [|e rest IH]; intros st st'; cbn [scan].
  - intros [= <-]. auto.
  - destruct (scan_body now e st) as [st1|] eqn:Hbody; cbn [mbind result_bind];
      [|discriminate].
    intros Hscan. destruct (IH _ _ Hscan) as [Hc Hu].
    destruct (scan_body_inv now e st st1 Hbody) as [Hc1 Hu1].
    split.
    + intros x Hx. destruct (Hc x Hx) as [Hin|Hin].
      * left. now right.
      * destruct Hc1 as [Hc1|Hc1]; rewrite Hc1 in Hin.
        -- now right.
        -- injection Hin as ->. left. left.
    + intros x Hx. destruct (Hu x Hx) as [Hin|Hin].
      * left. now right.
      * destruct Hu1 as [Hu1|Hu1]; rewrite Hu1 in Hin.
        -- now right.
        -- apply elem_of_app in Hin as [Hin|Hin]; [now right|].
           apply list_elem_of_singleton in Hin as ->. left. left.
Qed.

(** Whatever a call returns, on a well-typed schedule or not, the events
    of its result are equal to events of the schedule. *)
Lemma compute_events_from_schedule schedule now st :
  compute_display_state schedule now = Ok st →
  ∀ e, e ∈ events_of st → e ∈ schedule.
Proof.
  unfold compute_display_state.
  destruct (scan now schedule (mkVars None [])) as [vars|] eqn:Hscan;
    cbn [mbind result_bind]; [|discriminate].
  destruct (scan_inv now schedule _ _ Hscan) as [Hc Hu].
  cbn [v_current v_upcoming] in Hc, Hu.
  assert (Hcur : ∀ x, v_current vars = Some x → x ∈ schedule).
  { intros x Hx. destruct (Hc x Hx) as [?|?]; [assumption|discriminate]. }
  assert (Hupc : ∀ x, x ∈ v_upcoming vars → x ∈ schedule).
  { intros x Hx. destruct (Hu x Hx) as [?|Hn]; [assumption|inversion Hn]. }
  assert (Hhd : ∀ x, head (v_upcoming vars) = Some x → x ∈ schedule).
  { intros x Hx. apply Hupc. destruct (v_upcoming vars); [discriminate|].
    injection Hx as ->. left. }
  assert (Hfol : ∀ x, (if 1 <? Z.of_nat (length (v_upcoming vars))
                       then v_upcoming vars !! 1%nat else None) = Some x →
                      x ∈ schedule).
  { intros x Hx. apply Hupc. destruct (1 <? _); [|discriminate].
    apply list_elem_of_lookup. eauto. }
  assert (Hall : ∀ m (c n f : option Event) s e,
            (∀ x, c = Some x → x ∈ schedule) → (∀ x, n = Some x → x ∈ schedule) →
            (∀ x, f = Some x → x ∈ schedule) →
            e ∈ events_of (mkState m c n f s) → e ∈ schedule).
  { intros m c n f s e H1 H2 H3. unfold events_of. cbn [current next_event following_event].
    rewrite !elem_of_app. intros [He|[He|He]];
      [destruct c|destruct n|destruct f]; simpl in He;
      try (apply list_elem_of_singleton in He as ->; auto); inversion He. }
  destruct (negb (truthy_dict (v_current vars)) && negb (truthy_dict (head (v_upcoming vars)))).
  { intros [= <-] e He. inversion He. }
  destruct (truthy_dict (v_current vars)).
  { intros [= <-] e He. exact (Hall _ _ _ _ _ _ Hcur Hhd Hfol He). }
  destruct (head (v_upcoming vars)) as [nxt|] eqn:Hnxt.
  2: { intros [= <-] e He. inversion He. }
  destruct (getitem nxt "start") as [s|]; cbn [mbind result_bind]; [|discriminate].
  destruct (datetime_sub s now) as [d|]; cbn [mbind result_bind]; [|discriminate].
  destruct (strip_lower _) as [t|]; cbn [mbind result_bind]; [|discriminate].
  intros [= <-] e He. refine (Hall _ _ _ _ _ _ _ _ Hfol He).
  - discriminate.
  - exact Hhd.
Qed.

(** ** The minute warning and the countdown text *)

(** The minute rounding of the pre-start branch: for
    [seconds_to_start = n >= 0] it is the least [m] with [n <= 60 * m]. *)
Lemma minute_warning_ceiling (state : DisplayState Event) (n : Z) :
  seconds_to_start state = Some n → 0 <= n →
  n <= 60 * minutes_remaining state < n + 60 ∧
  (0 < n → 1 <= minutes_remaining state) ∧
  (n = 0 → minutes_remaining state = 0) ∧
  (n = 1 → minutes_remaining state = 1) ∧
  (n = 240 → minutes_remaining state = 4) ∧
  (n = 299 → minutes_remaining state = 5).
Proof.
  intros Hs Hn. unfold minutes_remaining, warning_secs. rewrite Hs.
  assert (Hsecs : (if n =? 0 then 0 else n) = n) by (destruct (Z.eqb_spec n 0); lia).
  rewrite Hsecs.
  assert (Hdiv : 60 * ((n + 59) / 60) <= n + 59 < 60 * ((n + 59) / 60) + 60).
  { pose proof (Z.div_mod (n + 59) 60 ltac:(lia)).
    pose proof (Z.mod_pos_bound (n + 59) 60 ltac:(lia)). lia. }
  assert (Hpos : 0 <= (n + 59) / 60) by (apply Z.div_pos; lia).
  rewrite Z.max_l by lia.
  repeat split; try lia; intros ->; reflexivity.
Qed.

Lemma colons_app s1 s2 :
  colons (s1 ++ s2)%string = (colons s1 + colons s2)%nat.
Proof. induction s1 as [|c s1 IH]; simpl; [reflexivity|]. rewrite IH. lia. Qed.

Lemma colons_string_of_uint d : colons (NilEmpty.string_of_uint d) = 0%nat.
Proof. induction d; simpl; auto. Qed.

Lemma colons_fmt_02d n : colons (fmt_02d n) = 0%nat.
Proof.
  assert (Hint : colons (NilZero.string_of_int (Z.to_int n)) = 0%nat).
  { unfold NilZero.string_of_int, NilZero.string_of_uint.
    destruct (Z.to_int n) as [d|d]; destruct d; simpl;
      rewrite ?colons_string_of_uint; reflexivity. }
  unfold fmt_02d. destruct (_ <? _)%nat; simpl; rewrite Hint; reflexivity.
Qed.

(** The two shapes of the text, by the hour component of the clamped
    duration. *)
Lemma format_timedelta_shape (td : Z) :
  let total := Z.max (total_seconds_int td) 0 in
  (total / 3600 = 0 →
     format_timedelta td
     = (fmt_02d (total mod 3600 / 60) ++ ":" ++ fmt_02d (total mod 3600 mod 60))%string ∧
     colons (format_timedelta td) = 1%nat) ∧
  (total / 3600 ≠ 0 →
     format_timedelta td
     = (fmt_02d (total / 3600) ++ ":" ++ fmt_02d (total mod 3600 / 60) ++ ":"
        ++ fmt_02d (total mod 3600 mod 60))%string ∧
     colons (format_timedelta td) = 2%nat).
Proof.
  assert (Hclamp : (if total_seconds_int td <? 0 then 0 else total_seconds_int td)
                   = Z.max (total_seconds_int td) 0).
  { destruct (Z.ltb_spec (total_seconds_int td) 0); lia. }
  cbv zeta. unfold format_timedelta. rewrite Hclamp.
  set (total := Z.max (total_seconds_int td) 0).
  split; intros Hh.
  - rewrite Hh. cbn [Z.eqb negb]. split; [reflexivity|].
    rewrite !colons_app, !colons_fmt_02d. reflexivity.
  - apply Z.eqb_neq in Hh. rewrite Hh. cbn [negb]. split; [reflexivity|].
    rewrite !colons_app, !colons_fmt_02d. reflexivity.
Qed.

(** C8. [format_timedelta] on 0, 65 and 3661 seconds gives "00:00",
    "01:05" and "01:01:01"; every negative duration gives "00:00"; and
    the text has the hour field, that is two colons instead of one,
    exactly when the hour component of the clamped duration is not
    zero. The duration is the whole seconds [int(td.total_seconds())]
    takes from the float, the whole seconds of [td] below [2^34]
    seconds. *)
Theorem format_timedelta_spec (td : Z) :
  format_timedelta (timedelta_seconds 0) = "00:00"%string ∧
  format_timedelta (timedelta_seconds 65) = "01:05"%string ∧
  format_timedelta (timedelta_seconds 3661) = "01:01:01"%string ∧
  (td < 0 → format_timedelta td = "00:00"%string) ∧
  (0 <= td < 17179869184000000 → total_seconds_int td = td / 1000000) ∧
  let total := Z.max (total_seconds_int td) 0 in
  (total / 3600 = 0 →
     format_timedelta td
     = (fmt_02d (total mod 3600 / 60) ++ ":" ++ fmt_02d (total mod 3600 mod 60))%string ∧
     colons (format_timedelta td) = 1%nat) ∧
  (total / 3600 ≠ 0 →
     format_timedelta td
     = (fmt_02d (total / 3600) ++ ":" ++ fmt_02d (total mod 3600 / 60) ++ ":"
        ++ fmt_02d (total mod 3600 mod 60))%string ∧
     colons (format_timedelta td) = 2%nat).
Proof.
  split; [reflexivity|]. split; [reflexivity|]. split; [reflexivity|].
  split; [|split; [apply total_seconds_int_exact|apply format_timedelta_shape]].
  intros Hneg. pose proof (total_seconds_negative td Hneg) as Hle.
  destruct (format_timedelta_shape td) as [Hmm _]. cbv zeta in Hmm.
  replace (Z.max (total_seconds_int td) 0) with 0 in Hmm by lia.
  destruct (Hmm eq_refl) as [-> _]. reflexivity.
Qed.

Lemma format_timedelta_spec_witness :
  format_timedelta (-1500000) = "00:00"%string ∧
  colons (format_timedelta (timedelta_seconds 3599)) = 1%nat ∧
  colons (format_timedelta (timedelta_seconds 3600)) = 2%nat.
Proof.
  split; [|split].
  - destruct (format_timedelta_spec (-1500000)) as (_ & _ & _ & Hneg & _).
    apply Hneg. lia.
  - destruct (format_timedelta_spec (timedelta_seconds 3599)) as (_ & _ & _ & _ & _ & Hmm & _).
    apply Hmm. reflexivity.
  - destruct (format_timedelta_spec (timedelta_seconds 3600)) as (_ & _ & _ & _ & _ & _ & Hhh).
    apply Hhh. vm_compute. discriminate.
Defined.

(** At 2^34 seconds and 999999 microseconds the float is the next whole
    number, and the text shows the second more. *)
Example format_timedelta_float :
  total_seconds_int (timedelta_seconds 17179869184 + 999999) = 17179869185 ∧
  format_timedelta (timedelta_seconds 17179869184 + 999999) = "4772185:53:05"%string.
Proof. split; reflexivity. Qed.

(** X13. In mode ['pre_start'] the countdown is at most 300 seconds, the
    threshold [SECONDS_BEFORE_INTERMISSION_WARNING]: the warning reads
    between 0 and 5 minutes and the countdown text has no hour field. *)
Proposition pre_start_warning_range (schedule : list Event) (now : Z)
    (st : DisplayState Event) :
  compute_display_state schedule now = Ok st →
  mode st = "pre_start"%string →
  0 <= warning_secs st <= SECONDS_BEFORE_INTERMISSION_WARNING ∧
  0 <= minutes_remaining st <= 5 ∧
  colons (countdown_str st) = 1%nat.
Proof.
  unfold compute_display_state.
  destruct (scan now schedule (mkVars None [])) as [vars|]; cbn [mbind result_bind];
    [|discriminate].
  destruct (negb _ && negb _); [intros [= <-]; discriminate|].
  destruct (truthy_dict (v_current vars)); [intros [= <-]; discriminate|].
  destruct (head (v_upcoming vars)) as [nxt|]; [|intros [= <-]; discriminate].
  destruct (getitem nxt "start") as [s|]; cbn [mbind result_bind]; [|discriminate].
  destruct (datetime_sub s now) as [d|]; cbn [mbind result_bind]; [|discriminate].
  destruct (strip_lower _) as [t|]; cbn [mbind result_bind]; [|discriminate].
  intros [= <-]. cbn [mode].
  destruct (is_session t); cbn [andb]; [|discriminate].
  destruct (Z.leb_spec (total_seconds_int d) (5 * 60)) as [Hle|]; [|discriminate].
  intros _.
  assert (Hw : 0 <= warning_secs
                      {| mode := "pre_start"; current := None; next_event := Some nxt;
                         following_event :=
                           (if 1 <? Z.of_nat (length (v_upcoming vars))
                            then v_upcoming vars !! 1%nat else None);
                         seconds_to_start := Some (Z.max (total_seconds_int d) 0) |}
                 <= 300).
  { unfold warning_secs. cbn [seconds_to_start].
    destruct (Z.eqb_spec (Z.max (total_seconds_int d) 0) 0); lia. }
  unfold minutes_remaining, countdown_str, SECONDS_BEFORE_INTERMISSION_WARNING.
  set (w := warning_secs _) in *. clearbody w.
  split; [lia|]. split.
  - assert (0 <= (w + 59) / 60) by (apply Z.div_pos; lia).
    assert ((w + 59) / 60 < 6) by (apply Z.div_lt_upper_bound; lia).
    lia.
  - destruct (format_timedelta_shape (timedelta_seconds w)) as [Hmm _].
    cbv zeta in Hmm. apply Hmm.
    unfold timedelta_seconds. rewrite total_seconds_int_whole by lia.
    rewrite Z.max_l by lia. apply Z.div_small. lia.
Qed.

(** ** The call on objects: what it reads, returns and leaves *)

Section RefRun.
(** [h0] is the heap the caller holds; the runs below are on heaps that
    agree with it on the objects the schedule reaches. *)
Variables (h0 : heap) (now : Z).

Lemma insert_list_id (h : heap) (u : loc) (us : list loc) :
  h !! u = Some (OList us) → <[u := OList us]> h = h.
Proof. apply insert_id. Qed.

(** One turn of the loop: its outcome [r] and the items [us2] it leaves
    in [upcoming] depend on the object [e] points to, not on the rest of
    the heap or on where [upcoming] lives, and match [scan_body]. *)
Lemma ref_scan_body_run (e : loc) (cur : option loc) (us : list loc) :
  ∃ (r : result (option loc)) (us2 : list loc),
    (∀ (h : heap) (u : loc),
        h !! e = h0 !! e → e ≠ u → h !! u = Some (OList us) →
        ref_scan_body now u e cur h = (r, <[u := OList us2]> h)) ∧
    (us2 = us ∨ us2 = us ++ [e]) ∧
    (∀ c, r = Ok c → c = cur ∨ c = Some e) ∧
    ((∃ d, h0 !! e = Some (ODict d)) →
     scan_body now (dict_at h0 e) (mkVars (dict_at h0 <$> cur) (dict_at h0 <$> us))
     = match r with
       | Ok c => Ok (mkVars (dict_at h0 <$> c) (dict_at h0 <$> us2))
       | Raise x => Raise x
       end).
Proof.
  unfold ref_scan_body, scan_body, dict_at.
  destruct (h0 !! e) as [[d|items]|] eqn:He.
  2,3: exists (Raise TypeError), us;
       (split; [|split; [|split]]); auto; try discriminate;
       [intros h u Hh _ Hu; unfold mbind, M_bind, deref_dict;
        rewrite Hh, (insert_list_id h u us Hu); reflexivity
       |intros [d Hd]; discriminate].
  destruct (is_current d now) as [c|x] eqn:Hc.
  2: { exists (Raise x), us. split; [|split; [|split]]; auto; try discriminate.
       intros h u Hh _ Hu. unfold mbind, M_bind, deref_dict, lift.
       rewrite Hh, Hc, (insert_list_id h u us Hu). reflexivity. }
  destruct (is_upcoming d now) as [up|x] eqn:Hup.
  2: { exists (Raise x), us. split; [|split; [|split]]; auto; try discriminate.
       intros h u Hh _ Hu. unfold mbind, M_bind, deref_dict, lift.
       rewrite Hh, Hc, Hup, (insert_list_id h u us Hu). reflexivity. }
  exists (Ok (if c then Some e else cur)), (if up then us ++ [e] else us).
  split; [|split; [|split]].
  - intros h u Hh Hne Hu.
    unfold mbind, M_bind, deref_dict, lift, list_append, mret, M_ret.
    rewrite Hh, Hc, Hup. destruct up.
    + rewrite Hu. reflexivity.
    + rewrite (insert_list_id h u us Hu). reflexivity.
  - destruct up; auto.
  - intros c' [= <-]. destruct c; auto.
  - intros _. cbn [mbind result_bind v_current v_upcoming].
    destruct c, up; cbn [fmap option_fmap option_map];
      rewrite ?fmap_app; cbn [fmap list_fmap]; rewrite ?He; reflexivity.
Qed.

(** The loop, likewise. *)
Lemma ref_scan_run (items : list loc) : ∀ (cur : option loc) (us : list loc),
  ∃ (r : result (option loc)) (us2 : list loc),
    (∀ (h : heap) (u : loc),
        (∀ l, l ∈ items → h !! l = h0 !! l ∧ l ≠ u) → h !! u = Some (OList us) →
        ref_scan now u items cur h = (r, <[u := OList us2]> h)) ∧
    (∀ l, l ∈ us2 → l ∈ us ∨ l ∈ items) ∧
    (∀ l, r = Ok (Some l) → cur = Some l ∨ l ∈ items) ∧
    ((∀ l, l ∈ items → ∃ d, h0 !! l = Some (ODict d)) →
     scan now (dict_at h0 <$> items)
       (mkVars (dict_at h0 <$> cur) (dict_at h0 <$> us))
     = match r with
       | Ok c => Ok (mkVars (dict_at h0 <$> c) (dict_at h0 <$> us2))
       | Raise x => Raise x
       end).
Proof.
  induction items as [|e rest IH]; intros cur us.
  - exists (Ok cur), us. split; [|split; [|split]]; auto.
    + intros h u _ Hu. cbn [ref_scan]. unfold mret, M_ret.
      rewrite (insert_list_id h u us Hu). reflexivity.
    + intros l [= ->]. auto.
  - destruct (ref_scan_body_run e cur us) as (r1 & us1 & Hrun1 & Hus1 & Hc1 & Href1).
    destruct r1 as [c1|x].
    + destruct (IH c1 us1) as (r & us2 & Hrun & Hus & Hc & Href).
      exists r, us2. split; [|split; [|split]].
      * intros h u Hagree Hu. cbn [ref_scan]. unfold mbind, M_bind.
        destruct (Hagree e (list_elem_of_here e rest)) as [Hhe Hne].
        rewrite (Hrun1 h u Hhe Hne Hu).
        rewrite (Hrun (<[u := OList us1]> h) u).
        -- rewrite insert_insert_eq. reflexivity.
        -- intros l Hl. destruct (Hagree l (list_elem_of_further l e rest Hl)) as [Hhl Hnl].
           split; [|exact Hnl]. rewrite lookup_insert_ne by congruence. exact Hhl.
        -- apply lookup_insert_eq.
      * intros l Hl. destruct (Hus l Hl) as [Hin|Hin]; [|right; now right].
        destruct Hus1 as [->| ->]; [now left|].
        apply elem_of_app in Hin as [Hin|Hin]; [now left|].
        apply list_elem_of_singleton in Hin as ->. right. left.
      * intros l Hr. destruct (Hc l Hr) as [Hin|Hin]; [|right; now right].
        destruct (Hc1 c1 eq_refl) as [->| ->]; [now left|].
        injection Hin as ->. right. left.
      * intros Hd. cbn [fmap list_fmap scan].
        rewrite Href1 by (apply Hd; left). cbn [mbind result_bind].
        apply Href. intros l Hl. apply Hd. now right.
    + exists (Raise x), us1. split; [|split; [|split]].
      * intros h u Hagree Hu. cbn [ref_scan]. unfold mbind, M_bind.
        destruct (Hagree e (list_elem_of_here e rest)) as [Hhe Hne].
        rewrite (Hrun1 h u Hhe Hne Hu). reflexivity.
      * intros l Hl. destruct Hus1 as [->| ->]; [now left|].
        apply elem_of_app in Hl as [Hin|Hin]; [now left|].
        apply list_elem_of_singleton in Hin as ->. right. left.
      * discriminate.
      * intros Hd. cbn [fmap list_fmap scan].
        rewrite Href1 by (apply Hd; left). reflexivity.
Qed.
End RefRun.

Section ReadsOnly.
Variables (h0 : heap) (X : list loc).

Lemma reads_only_ret {A} (a : A) : reads_only h0 X (mret a).
Proof. exists (Ok a). reflexivity. Qed.

Lemma reads_only_lift {A} (r : result A) : reads_only h0 X (lift r).
Proof. exists r. reflexivity. Qed.

Lemma reads_only_deref_dict l : l ∈ X → reads_only h0 X (deref_dict l).
Proof.
  intros Hl. unfold deref_dict.
  destruct (h0 !! l) as [[d|items]|] eqn:Hd;
    [exists (Ok d) | exists (Raise TypeError) | exists (Raise TypeError)];
    intros h Hh; rewrite (Hh l Hl), Hd; reflexivity.
Qed.

Lemma reads_only_bind {A B} (m : M A) (f : A → M B) :
  reads_only h0 X m → (∀ a, reads_only h0 X (f a)) → reads_only h0 X (m ≫= f).
Proof.
  intros [r Hm] Hf. destruct r as [a|x].
  - destruct (Hf a) as [r Hfa]. exists r. intros h Hh.
    unfold mbind, M_bind. rewrite (Hm h Hh). apply Hfa, Hh.
  - exists (Raise x). intros h Hh. unfold mbind, M_bind. rewrite (Hm h Hh). reflexivity.
Qed.

Lemma reads_only_truthy o :
  (∀ l, o = Some l → l ∈ X) → reads_only h0 X (ref_truthy o).
Proof.
  intros Ho. destruct o as [l|]; simpl.
  - apply reads_only_bind; [apply reads_only_deref_dict; auto|].
    intros d. apply reads_only_ret.
  - apply reads_only_ret.
Qed.

(** The statements after the loop only read, and only the events that
    [current] and [upcoming] refer to. *)
Lemma reads_only_display_state now cur up :
  (∀ l, cur = Some l → l ∈ X) → (∀ l, l ∈ up → l ∈ X) →
  reads_only h0 X (ref_display_state now cur up).
Proof.
  intros Hcur Hup. unfold ref_display_state.
  assert (Hhd : ∀ l, head up = Some l → l ∈ X).
  { intros l Hl. apply Hup. destruct up; [discriminate|]. injection Hl as ->. left. }
  apply reads_only_bind; [apply reads_only_truthy, Hcur|]. intros tc.
  apply reads_only_bind; [apply reads_only_truthy, Hhd|]. intros tn.
  destruct (negb tc && negb tn); [apply reads_only_ret|].
  destruct tc; [apply reads_only_ret|].
  destruct (head up) as [nxt|] eqn:Hnxt; [|apply reads_only_ret].
  apply reads_only_bind; [apply reads_only_deref_dict, Hhd; reflexivity|]. intros d.
  apply reads_only_bind; [apply reads_only_lift|]. intros s.
  apply reads_only_bind; [apply reads_only_lift|]. intros delta.
  apply reads_only_bind; [apply reads_only_lift|]. intros t.
  apply reads_only_ret.
Qed.
End ReadsOnly.

(** The whole call: it allocates the list [upcoming] at a fresh
    reference and touches nothing else; its outcome [r] and the items
    [us] left in [upcoming] are the same on every heap that holds the
    schedule and agrees with [h0] on the events. *)
Lemma ref_compute_run (h0 : heap) (schedule : loc) (now : Z) (items : list loc) :
  (∀ l, l ∈ items → is_Some (h0 !! l)) →
  ∃ (r : result (DisplayState loc)) (us : list loc),
    ∀ h : heap,
      h !! schedule = Some (OList items) →
      (∀ l, l ∈ items → h !! l = h0 !! l) →
      ref_compute_display_state schedule now h
      = (r, <[fresh (dom h) := OList us]> h).
Proof.
  intros Hvalid.
  destruct (ref_scan_run h0 now items None []) as (r1 & us2 & Hrun & Hus & Hc & _).
  assert (Hstart : ∀ h : heap,
            h !! schedule = Some (OList items) →
            (∀ l, l ∈ items → h !! l = h0 !! l) →
            fresh (dom h) ≠ schedule ∧
            (∀ l, l ∈ items → l ≠ fresh (dom h)) ∧
            ref_scan now (fresh (dom h)) items None (<[fresh (dom h) := OList []]> h)
            = (r1, <[fresh (dom h) := OList us2]> h)).
  { intros h Hs Hag.
    assert (Hu : h !! fresh (dom h) = None) by apply not_elem_of_dom, is_fresh.
    assert (Hne : ∀ l, l ∈ items → l ≠ fresh (dom h)).
    { intros l Hl ->. rewrite (Hag _ Hl) in Hu. destruct (Hvalid _ Hl); congruence. }
    split; [congruence|]. split; [exact Hne|].
    rewrite (Hrun (<[fresh (dom h) := OList []]> h) (fresh (dom h))).
    - rewrite insert_insert_eq. reflexivity.
    - intros l Hl. split; [|apply Hne, Hl].
      rewrite lookup_insert_ne by (apply not_eq_sym, Hne, Hl). apply Hag, Hl.
    - apply lookup_insert_eq. }
  destruct r1 as [c|x].
  - destruct (reads_only_display_state h0 items now c us2) as [r Hr].
    { intros l ->. destruct (Hc l eq_refl) as [?|?]; [discriminate|assumption]. }
    { intros l Hl. destruct (Hus l Hl) as [Hn|?]; [inversion Hn|assumption]. }
    exists r, us2. intros h Hs Hag.
    destruct (Hstart h Hs Hag) as (Hfs & Hne & Hscan).
    unfold ref_compute_display_state, mbind, M_bind, new_list, deref_list.
    rewrite lookup_insert_ne, Hs by exact Hfs.
    rewrite Hscan, lookup_insert_eq.
    apply Hr. intros l Hl.
    rewrite lookup_insert_ne by (apply not_eq_sym, Hne, Hl). apply Hag, Hl.
  - exists (Raise x), us2. intros h Hs Hag.
    destruct (Hstart h Hs Hag) as (Hfs & Hne & Hscan).
    unfold ref_compute_display_state, mbind, M_bind, new_list, deref_list.
    rewrite lookup_insert_ne, Hs by exact Hfs.
    rewrite Hscan. reflexivity.
Qed.

(** C9. Two calls in a row with the same arguments give equal results
    (or raise the same exception), and every object of the heap the
    caller holds, the schedule list and each event dict, is after both
    calls what it was before: a call only allocates its own list
    [upcoming]. *)
Theorem call_twice_same (h : heap) (schedule : loc) (now : Z) :
  valid_refs h schedule →
  ∃ (r : result (DisplayState loc)) (h1 h2 : heap),
    ref_compute_display_state schedule now h = (r, h1) ∧
    ref_compute_display_state schedule now h1 = (r, h2) ∧
    ∀ l o, h !! l = Some o → h1 !! l = Some o ∧ h2 !! l = Some o.
Proof.
  intros (items & Hs & Hvalid).
  destruct (ref_compute_run h schedule now items Hvalid) as (r & us & Hrun).
  set (h1 := <[fresh (dom h) := OList us]> h).
  assert (Hkeep : ∀ l o, h !! l = Some o → h1 !! l = Some o).
  { intros l o Hl. unfold h1. rewrite lookup_insert_ne; [exact Hl|].
    intros <-. assert (Hn : h !! fresh (dom h) = None) by apply not_elem_of_dom, is_fresh.
    congruence. }
  exists r, h1, (<[fresh (dom h1) := OList us]> h1).
  split; [apply Hrun; auto|]. split.
  - apply Hrun; [apply Hkeep, Hs|].
    intros l Hl. destruct (Hvalid l Hl) as [o Ho]. rewrite Ho. apply Hkeep, Ho.
  - intros l o Hl. split; [apply Hkeep, Hl|].
    rewrite lookup_insert_ne; [apply Hkeep, Hl|].
    intros <-. assert (Hn : h1 !! fresh (dom h1) = None) by apply not_elem_of_dom, is_fresh.
    rewrite (Hkeep _ _ Hl) in Hn. discriminate.
Qed.

Lemma call_twice_same_witness :
  ∃ (r : result (DisplayState loc)) (h1 h2 : heap),
    ref_compute_display_state 3%positive (combine 0 9 15) demo_heap = (r, h1) ∧
    ref_compute_display_state 3%positive (combine 0 9 15) h1 = (r, h2) ∧
    ∀ l o, demo_heap !! l = Some o → h1 !! l = Some o ∧ h2 !! l = Some o.
Proof.
  apply (call_twice_same demo_heap 3%positive (combine 0 9 15)).
  exists [1%positive; 2%positive]. split; [vm_refl|].
  intros l Hl. apply list_elem_of_In in Hl. simpl in Hl.
  destruct Hl as [<-|[<-|[]]];
    [exists (ODict demo_talk) | exists (ODict demo_break)]; vm_refl.
Defined.

(** ** The call on objects computes [compute_display_state] *)

Lemma head_list_fmap {A B : Type} (f : A → B) (l : list A) :
  head (f <$> l) = f <$> head l.
Proof. destruct l; reflexivity. Qed.

(** The statements after the loop, run on a heap [h'] that holds the
    dicts of [h] at the events [current] and [upcoming] refer to. *)
Lemma ref_display_state_refines (h h' : heap) (now : Z) (c : option loc)
    (up : list loc) (schedule : list Event) :
  (∀ l, c = Some l → ∃ d, h !! l = Some (ODict d) ∧ h' !! l = Some (ODict d)) →
  (∀ l, l ∈ up → ∃ d, h !! l = Some (ODict d) ∧ h' !! l = Some (ODict d)) →
  scan now schedule (mkVars None [])
  = Ok (mkVars (dict_at h <$> c) (dict_at h <$> up)) →
  ∃ r, ref_display_state now c up h' = (r, h') ∧
       compute_display_state schedule now
       = match r with
         | Ok st => Ok (state_at h st)
         | Raise x => Raise x
         end.
Proof.
  intros Hc Hup Hscan. unfold compute_display_state. rewrite Hscan.
  cbn [mbind result_bind v_current v_upcoming].
  rewrite length_fmap, list_lookup_fmap, head_list_fmap.
  assert (Hhd : ∀ l, head up = Some l →
                     ∃ d, h !! l = Some (ODict d) ∧ h' !! l = Some (ODict d)).
  { intros l Hl. apply Hup. destruct up; [discriminate|]. injection Hl as ->. left. }
  unfold ref_display_state.
  set (fol := if 1 <? Z.of_nat (length up) then up !! 1%nat else None).
  assert (Hfol : (if 1 <? Z.of_nat (length up)
                  then dict_at h <$> up !! 1%nat else None) = dict_at h <$> fol).
  { unfold fol. destruct (1 <? _); reflexivity. }
  rewrite Hfol. clear Hfol. clearbody fol.
  assert (Htruthy : ∀ o : option loc,
            (∀ l, o = Some l → ∃ d, h !! l = Some (ODict d) ∧ h' !! l = Some (ODict d)) →
            ref_truthy o h' = (Ok (truthy_dict (dict_at h <$> o)), h')).
  { intros [l|] Ho; [|reflexivity]. destruct (Ho l eq_refl) as (d & Hd & Hd').
    unfold ref_truthy, mbind, M_bind, deref_dict, dict_at. cbn [fmap option_fmap option_map].
    rewrite Hd, Hd'. reflexivity. }
  unfold mbind at 1, M_bind at 1. rewrite (Htruthy c Hc).
  unfold mbind at 1, M_bind at 1. rewrite (Htruthy (head up) Hhd).
  destruct (negb (truthy_dict (dict_at h <$> c)) && negb (truthy_dict (dict_at h <$> head up))).
  { eexists. split; reflexivity. }
  destruct (truthy_dict (dict_at h <$> c)).
  { eexists. split; reflexivity. }
  destruct (head up) as [nxt|] eqn:Hnxt; cbn [fmap option_fmap option_map].
  2: { eexists. split; reflexivity. }
  destruct (Hhd nxt eq_refl) as (d & Hd & Hd').
  assert (Hdn : dict_at h nxt = d) by (unfold dict_at; rewrite Hd; reflexivity).
  rewrite Hdn. unfold mbind, M_bind, deref_dict, lift. rewrite Hd'.
  destruct (getitem d "start") as [s|x]; cbn [result_bind];
    [|eexists; split; reflexivity].
  destruct (datetime_sub s now) as [delta|x]; cbn [result_bind];
    [|eexists; split; reflexivity].
  destruct (strip_lower _) as [t|x]; cbn [result_bind];
    [|eexists; split; reflexivity].
  eexists. split; [reflexivity|]. unfold state_at.
  cbn [mode current next_event following_event seconds_to_start fmap option_fmap option_map].
  rewrite Hdn. reflexivity.
Qed.

(** On a heap whose schedule is a list of dicts, the call on references
    gives what [compute_display_state] gives on the list of these dicts:
    the same exception, or the same display state once its references
    are read. *)
Lemma ref_compute_refines (h : heap) (schedule : loc) (now : Z) (items : list loc) :
  h !! schedule = Some (OList items) →
  (∀ l, l ∈ items → ∃ d, h !! l = Some (ODict d)) →
  ∃ r h', ref_compute_display_state schedule now h = (r, h') ∧
          compute_display_state (dict_at h <$> items) now
          = match r with
            | Ok st => Ok (state_at h st)
            | Raise x => Raise x
            end.
Proof.
  intros Hs Hd.
  destruct (ref_scan_run h now items None []) as (r1 & us2 & Hrun & Hus & Hc & Href).
  specialize (Href Hd). cbn [fmap option_fmap option_map list_fmap] in Href.
  assert (Hu : h !! fresh (dom h) = None) by apply not_elem_of_dom, is_fresh.
  assert (Hne : ∀ l, l ∈ items → l ≠ fresh (dom h)).
  { intros l Hl ->. destruct (Hd _ Hl); congruence. }
  assert (Hscan : ref_scan now (fresh (dom h)) items None (<[fresh (dom h) := OList []]> h)
                  = (r1, <[fresh (dom h) := OList us2]> h)).
  { rewrite (Hrun (<[fresh (dom h) := OList []]> h) (fresh (dom h))).
    - rewrite insert_insert_eq. reflexivity.
    - intros l Hl. split; [|apply Hne, Hl].
      apply lookup_insert_ne, not_eq_sym, Hne, Hl.
    - apply lookup_insert_eq. }
  unfold ref_compute_display_state, mbind at 1 2 3 4, M_bind at 1 2 3 4, new_list, deref_list.
  rewrite lookup_insert_ne, Hs by congruence. rewrite Hscan.
  destruct r1 as [c|x].
  - rewrite lookup_insert_eq.
    destruct (ref_display_state_refines h (<[fresh (dom h) := OList us2]> h) now c us2
                (dict_at h <$> items)) as (r & Hr & Hval).
    + intros l ->. destruct (Hc l eq_refl) as [?|Hl]; [discriminate|].
      destruct (Hd l Hl) as [d Hdl]. exists d. split; [exact Hdl|].
      rewrite lookup_insert_ne by (apply not_eq_sym, Hne, Hl). exact Hdl.
    + intros l Hl. destruct (Hus l Hl) as [Hn|Hl']; [inversion Hn|].
      destruct (Hd l Hl') as [d Hdl]. exists d. split; [exact Hdl|].
      rewrite lookup_insert_ne by (apply not_eq_sym, Hne, Hl'). exact Hdl.
    + exact Href.
    + rewrite Hr. eauto.
  - eexists _, _. split; [reflexivity|].
    unfold compute_display_state. rewrite Href. reflexivity.
Qed.

(** ** The objects a result refers to *)

(** The statements after the loop return no reference but [current] and
    items of [upcoming]. *)
Lemma ref_display_state_events (now : Z) (c : option loc) (up : list loc)
    (h h' : heap) (st : DisplayState loc) :
  ref_display_state now c up h = (Ok st, h') →
  ∀ l, l ∈ events_of st → c = Some l ∨ l ∈ up.
Proof.
  assert (Hhd : ∀ l, head up = Some l → l ∈ up).
  { intros l Hl. destruct up; [discriminate|]. injection Hl as ->. left. }
  assert (Hfol : ∀ l, (if 1 <? Z.of_nat (length up) then up !! 1%nat else None) = Some l →
                      l ∈ up).
  { intros l Hl. destruct (1 <? _); [|discriminate]. apply list_elem_of_lookup. eauto. }
  assert (Hall : ∀ md (cu n f : option loc) s l,
            (∀ x, cu = Some x → c = Some x) → (∀ x, n = Some x → x ∈ up) →
            (∀ x, f = Some x → x ∈ up) →
            l ∈ events_of (mkState md cu n f s) → c = Some l ∨ l ∈ up).
  { intros md cu n f s l H1 H2 H3. unfold events_of.
    cbn [current next_event following_event].
    rewrite !elem_of_app. intros [Hl|[Hl|Hl]];
      [destruct cu|destruct n|destruct f]; simpl in Hl;
      try (apply list_elem_of_singleton in Hl as ->; auto); inversion Hl. }
  unfold ref_display_state, mbind, M_bind.
  destruct (ref_truthy c h) as [[tc|x] h1]; [|discriminate].
  destruct (ref_truthy (head up) h1) as [[tn|x] h2]; [|discriminate].
  destruct (negb tc && negb tn).
  { intros [= <- <-] l Hl. inversion Hl. }
  destruct tc.
  { intros [= <- <-] l Hl. exact (Hall _ _ _ _ _ _ (fun x Hx => Hx) Hhd Hfol Hl). }
  destruct (head up) as [nxt|] eqn:Hnxt.
  2: { intros [= <- <-] l Hl. inversion Hl. }
  destruct (deref_dict nxt h2) as [[d|x] h3]; [|discriminate].
  unfold lift.
  destruct (getitem d "start") as [s|x]; [|discriminate].
  destruct (datetime_sub s now) as [delta|x]; [|discriminate].
  destruct (strip_lower _) as [t|x]; [|discriminate].
  intros [= <- <-] l Hl. refine (Hall _ _ _ _ _ _ _ Hhd Hfol Hl). discriminate.
Qed.

(** X11. The result of a call holds no event of its own making and no
    copy: each of [current], [next_event] and [following_event] is a
    reference the schedule list holds, to an object the call has left as
    it was. *)
Theorem result_refers_to_schedule (h h' : heap) (schedule : loc) (now : Z)
    (items : list loc) (st : DisplayState loc) :
  h !! schedule = Some (OList items) →
  (∀ l, l ∈ items → is_Some (h !! l)) →
  ref_compute_display_state schedule now h = (Ok st, h') →
  ∀ l, l ∈ events_of st → l ∈ items ∧ h' !! l = h !! l.
Proof.
  intros Hs Hvalid Hrun.
  destruct (ref_scan_run h now items None []) as (r1 & us2 & Hscanrun & Hus & Hc & _).
  assert (Hu : h !! fresh (dom h) = None) by apply not_elem_of_dom, is_fresh.
  assert (Hne : ∀ l, l ∈ items → l ≠ fresh (dom h)).
  { intros l Hl ->. destruct (Hvalid _ Hl); congruence. }
  assert (Hscan : ref_scan now (fresh (dom h)) items None (<[fresh (dom h) := OList []]> h)
                  = (r1, <[fresh (dom h) := OList us2]> h)).
  { rewrite (Hscanrun (<[fresh (dom h) := OList []]> h) (fresh (dom h))).
    - rewrite insert_insert_eq. reflexivity.
    - intros l Hl. split; [|apply Hne, Hl].
      apply lookup_insert_ne, not_eq_sym, Hne, Hl.
    - apply lookup_insert_eq. }
  unfold ref_compute_display_state, mbind at 1 2 3 4, M_bind at 1 2 3 4,
    new_list, deref_list in Hrun.
  rewrite lookup_insert_ne, Hs in Hrun by congruence. rewrite Hscan in Hrun.
  destruct r1 as [c|x]; [|discriminate].
  rewrite lookup_insert_eq in Hrun.
  assert (Hin : ∀ l, c = Some l ∨ l ∈ us2 → l ∈ items).
  { intros l [->|Hl].
    - destruct (Hc l eq_refl) as [?|?]; [discriminate|assumption].
    - destruct (Hus l Hl) as [Hn|?]; [inversion Hn|assumption]. }
  destruct (reads_only_display_state h items now c us2) as [r Hr].
  { intros l Hl. apply Hin. left. exact Hl. }
  { intros l Hl. apply Hin. right. exact Hl. }
  pose proof (ref_display_state_events _ _ _ _ _ _ Hrun) as Hev.
  rewrite (Hr (<[fresh (dom h) := OList us2]> h)) in Hrun.
  2: { intros l Hl. apply lookup_insert_ne, not_eq_sym, Hne, Hl. }
  injection Hrun as _ <-.
  intros l Hl. pose proof (Hin l (Hev l Hl)) as Hitem.
  split; [exact Hitem|]. apply lookup_insert_ne, not_eq_sym, Hne, Hitem.
Qed.

Lemma result_refers_to_schedule_witness :
  (2%positive ∈ [1%positive; 2%positive]) ∧
  (ref_compute_display_state 3%positive (combine 0 9 15) demo_heap).2 !! 2%positive
  = demo_heap !! 2%positive.
Proof.
  apply (result_refers_to_schedule demo_heap
           (ref_compute_display_state 3%positive (combine 0 9 15) demo_heap).2
           3%positive (combine 0 9 15) [1%positive; 2%positive]
           {| mode := "in_talk"; current := Some 1%positive;
              next_event := Some 2%positive; following_event := None;
              seconds_to_start := None |}).
  - vm_refl.
  - intros l Hl. apply list_elem_of_In in Hl. simpl in Hl.
    destruct Hl as [<-|[<-|[]]];
      [exists (ODict demo_talk) | exists (ODict demo_break)]; vm_refl.
  - vm_refl.
  - right. left.
Defined.

(** ** The loader *)

Section Loader.
Context `{PyLib}.

Lemma loaded_event_fields track date ty s e sp ti sy :
  let ev := loaded_event track date ty s e sp ti sy in
  ev !! "start" = Some (VDatetime s) ∧ ev !! "end" = Some (VDatetime e) ∧
  ev !! "type" = Some (VStr ty) ∧
  ev !! "track" = Some (match track with Some t => VStr t | None => VNone end) ∧
  ev !! "speaker" = Some (VStr sp) ∧ ev !! "title" = Some (VStr ti) ∧
  ev !! "synopsis" = Some (VStr sy).
Proof. cbv zeta. unfold loaded_event. repeat split; reflexivity. Qed.

(** What a row that loads has gone through. *)
Lemma load_row_inv track_name row e :
  load_row track_name row = Loaded e →
  ∃ date_obj h m n,
    (is_truthy track_name && is_truthy (row !! "Track")
     && negb (String.eqb (strip (str_or (row !! "Track") "")) (str_or track_name "")))
    = false ∧
    strptime_time (strip (str_or (row !! "Start Time") "")) = Some (h, m) ∧
    int_of_str (strip (str_or (row !! "Duration") "")) = Some n ∧
    e = loaded_event
          (if is_truthy (row !! "Track")
           then Some (strip (str_or (row !! "Track") "")) else None)
          date_obj (strip (str_or (row !! "Type") "Talk"))
          (combine date_obj h m) (combine date_obj h m + timedelta_minutes n)
          (strip (str_or (row !! "Speaker") ""))
          (strip (str_or (row !! "Talk Title")
                    (str_or (row !! "Title") (str_or (row !! "Speaker/Title") ""))))
          (strip (str_or (row !! "Synopsis") "")).
Proof.
  unfold load_row.
  destruct (is_truthy track_name && is_truthy (row !! "Track") && negb _) eqn:Hskip;
    [discriminate|].
  destruct (if negb _ then _ else _) as [date_obj|]; [|discriminate].
  destruct (String.eqb (strip (str_or (row !! "Start Time") "")) ""); [discriminate|].
  destruct (strptime_time _) as [[h m]|] eqn:Htime; [|discriminate].
  destruct (String.eqb (strip (str_or (row !! "Duration") "")) ""); [discriminate|].
  destruct (int_of_str _) as [n|] eqn:Hint; [|discriminate].
  unfold timedelta_of_minutes, datetime_add.
  destruct ((- MAX_DELTA_DAYS <=? _) && _); [|discriminate].
  destruct ((1 * 86400000000 <=? _) && _); [|discriminate].
  intros [= <-]. exists date_obj, h, m, n. auto.
Qed.

Lemma load_row_well_typed track_name row e :
  load_row track_name row = Loaded e → well_typed e = true.
Proof.
  intros Hl. destruct (load_row_inv _ _ _ Hl) as (d & h & m & n & _ & _ & _ & ->).
  reflexivity.
Qed.

(** The loop: no event when a row fails, the events of the rows that
    load otherwise. *)
Lemma load_rows_spec track_name rows : ∀ schedule,
  load_rows track_name rows schedule
  = if existsb (row_fails track_name) rows then None
    else Some (schedule ++ row_events track_name rows).
Proof.
  induction rows as [|row rest IH]; intros schedule; cbn [load_rows existsb].
  - unfold row_events. cbn. rewrite app_nil_r. reflexivity.
  - assert (Hev : row_events track_name (row :: rest)
                  = match load_row track_name row with
                    | Loaded e => e :: row_events track_name rest
                    | _ => row_events track_name rest
                    end).
    { unfold row_events, row_event. cbn [omap list_omap].
      destruct (load_row track_name row); reflexivity. }
    rewrite Hev. unfold row_fails at 1.
    destruct (load_row track_name row) as [|e|]; cbn [orb].
    + apply IH.
    + rewrite IH. destruct (existsb _ rest); [reflexivity|].
      rewrite <- app_assoc. reflexivity.
    + reflexivity.
Qed.

Lemma elem_of_row_events track_name rows e :
  e ∈ row_events track_name rows →
  ∃ row, row ∈ rows ∧ load_row track_name row = Loaded e.
Proof.
  unfold row_events. rewrite list_elem_of_omap. intros (row & Hin & Hev).
  exists row. split; [exact Hin|]. unfold row_event in Hev.
  destruct (load_row track_name row); congruence.
Qed.

(** *** The sort *)

Lemma forallb_insert_by_start (P : Event → bool) e l :
  forallb P (insert_by_start e l) = P e && forallb P l.
Proof.
  induction l as [|x r IH]; cbn [insert_by_start forallb].
  - reflexivity.
  - destruct (start e <=? start x); cbn [forallb]; [reflexivity|].
    rewrite IH. destruct (P e), (P x); reflexivity.
Qed.

Lemma insert_by_start_sorted e l :
  sorted_by_start l = true → sorted_by_start (insert_by_start e l) = true.
Proof.
  induction l as [|x r IH]; cbn [insert_by_start sorted_by_start]; [reflexivity|].
  intros Hs. apply andb_true_iff in Hs as [Hx Hr].
  destruct (Z.leb_spec (start e) (start x)) as [Hle|Hgt]; cbn [sorted_by_start forallb].
  - rewrite Hx, Hr. rewrite !andb_true_r. apply andb_true_iff. split; [lia|].
    rewrite forallb_forall in Hx |- *. intros y Hy. specialize (Hx y Hy). lia.
  - rewrite forallb_insert_by_start, Hx, (IH Hr).
    rewrite !andb_true_r. lia.
Qed.

Lemma sort_by_start_sorted l : sorted_by_start (sort_by_start l) = true.
Proof.
  induction l as [|e l IH]; [reflexivity|].
  cbn [sort_by_start foldr]. apply insert_by_start_sorted, IH.
Qed.

Lemma insert_by_start_perm e l : insert_by_start e l ≡ₚ e :: l.
Proof.
  induction l as [|x r IH]; cbn [insert_by_start]; [reflexivity|].
  destruct (start e <=? start x); [reflexivity|].
  rewrite IH. apply Permutation_swap.
Qed.

Lemma sort_by_start_perm l : sort_by_start l ≡ₚ l.
Proof.
  induction l as [|e l IH]; [reflexivity|].
  cbn [sort_by_start foldr]. rewrite insert_by_start_perm.
  apply Permutation_cons; [reflexivity|exact IH].
Qed.

Lemma starting_at_insert t e l :
  starting_at t (insert_by_start e l)
  = if start e =? t then e :: starting_at t l else starting_at t l.
Proof.
  unfold starting_at.
  induction l as [|x r IH]; cbn [insert_by_start List.filter]; [reflexivity|].
  destruct (Z.leb_spec (start e) (start x)) as [Hle|Hgt]; cbn [List.filter].
  - reflexivity.
  - rewrite IH. destruct (Z.eqb_spec (start e) t) as [He|He];
      destruct (Z.eqb_spec (start x) t) as [Hx|Hx]; try reflexivity. lia.
Qed.

Lemma starting_at_sort t l :
  starting_at t (sort_by_start l) = starting_at t l.
Proof.
  induction l as [|e l IH]; [reflexivity|].
  cbn [sort_by_start foldr]. rewrite starting_at_insert.
  fold (sort_by_start l). rewrite IH. reflexivity.
Qed.

Lemma elem_of_load_schedule source track_name e :
  e ∈ load_schedule source track_name →
  ∃ rows row, source = Some rows ∧ row ∈ rows ∧ load_row track_name row = Loaded e.
Proof.
  unfold load_schedule. destruct source as [rows|]; [|intros Hin; inversion Hin].
  rewrite load_rows_spec. destruct (existsb _ rows); [intros Hin; inversion Hin|].
  cbn [app]. rewrite sort_by_start_perm. intros Hin.
  apply elem_of_row_events in Hin as (row & Hrow & Hl). eauto.
Qed.

Lemma load_schedule_well_typed source track_name :
  well_typed_schedule (load_schedule source track_name) = true.
Proof.
  unfold well_typed_schedule. apply forallb_forall. intros e He.
  apply list_elem_of_In, elem_of_load_schedule in He as (rows & row & _ & _ & Hl).
  exact (load_row_well_typed _ _ _ Hl).
Qed.

Lemma load_schedule_sorted source track_name :
  sorted_by_start (load_schedule source track_name) = true.
Proof.
  unfold load_schedule. destruct source as [rows|]; [|reflexivity].
  destruct (load_rows track_name rows []); [apply sort_by_start_sorted|reflexivity].
Qed.
End Loader.

Section LoaderProperties.
Context `{PyLib}.

Lemma malformed_skipped track_name row :
  malformed row = true → load_row track_name row = Skipped.
Proof.
  unfold malformed, load_row. intros Hm.
  destruct (is_truthy track_name && is_truthy (row !! "Track") && negb _); [reflexivity|].
  destruct (String.eqb (strip (str_or (row !! "Date") "")) "");
    destruct (strptime_date (strip (str_or (row !! "Date") "")));
    cbn [negb andb orb] in Hm |- *; try reflexivity;
    (destruct (String.eqb (strip (str_or (row !! "Start Time") "")) ""); [reflexivity|]);
    (destruct (strptime_time (strip (str_or (row !! "Start Time") ""))) as [[h m]|];
       [|reflexivity]);
    (destruct (String.eqb (strip (str_or (row !! "Duration") "")) ""); [reflexivity|]);
    (destruct (int_of_str (strip (str_or (row !! "Duration") ""))); [|reflexivity]);
    rewrite ?bool_decide_eq_true_2 in Hm by eauto; discriminate.
Qed.

Lemma row_events_app track_name r1 r2 :
  row_events track_name (r1 ++ r2)
  = row_events track_name r1 ++ row_events track_name r2.
Proof. apply omap_app. Qed.

(** X1. On every file and for every track, what [load_schedule] returns is
    in ascending order of start, and each of its events has a datetime
    under ['start'] and under ['end'] and a string under ['type']; so
    [compute_display_state] raises nothing on it, at any time. *)
Theorem loaded_schedule_ready (source : option (list Row))
    (track_name : option string) (now : Z) :
  sorted_by_start (load_schedule source track_name) = true ∧
  (∀ e, e ∈ load_schedule source track_name →
        ∃ (s t : Z) (ty : string),
          e !! "start" = Some (VDatetime s) ∧ e !! "end" = Some (VDatetime t) ∧
          e !! "type" = Some (VStr ty)) ∧
  well_typed_schedule (load_schedule source track_name) = true ∧
  ∃ st, compute_display_state (load_schedule source track_name) now = Ok st.
Proof.
  split; [apply load_schedule_sorted|]. split; [|split].
  - intros e He.
    apply elem_of_load_schedule in He as (rows & row & _ & _ & Hl).
    destruct (load_row_inv _ _ _ Hl) as (d & h & m & n & _ & _ & _ & ->).
    eexists _, _, _.
    match goal with
    | |- context [loaded_event ?tr ?da ?ty ?st ?en ?sp ?ti ?sy] =>
        destruct (loaded_event_fields tr da ty st en sp ti sy) as (Hs & He & Ht & _)
    end.
    cbv zeta in Hs, He, Ht. rewrite Hs, He, Ht. auto.
  - apply load_schedule_well_typed.
  - apply compute_total, load_schedule_well_typed.
Qed.

(** X2. When no row fails, the schedule holds one event for each row that
    loads, no more and no less, and events with the same start are in the
    order of their rows. *)
Theorem load_schedule_stable (rows : list Row) (track_name : option string) :
  existsb (row_fails track_name) rows = false →
  load_schedule (Some rows) track_name ≡ₚ row_events track_name rows ∧
  ∀ t, starting_at t (load_schedule (Some rows) track_name)
       = starting_at t (row_events track_name rows).
Proof.
  intros Hok. unfold load_schedule. rewrite load_rows_spec, Hok. cbn [app].
  split; [apply sort_by_start_perm|]. intros t. apply starting_at_sort.
Qed.

(** X3. With a track name that is not empty, every event of the schedule has
    that very name as its track, or no track at all; a row whose Track is
    missing or empty is never left out for its track. *)
Theorem track_filter (source : option (list Row)) (track_name : string) :
  track_name ≠ ""%string →
  (∀ e, e ∈ load_schedule source (Some track_name) →
        e !! "track" = Some VNone ∨ e !! "track" = Some (VStr track_name)) ∧
  (∀ row, is_truthy (row !! "Track") = false →
          load_row (Some track_name) row = load_row None row).
Proof.
  intros Hne. split.
  - intros e He.
    apply elem_of_load_schedule in He as (rows & row & _ & _ & Hl).
    destruct (load_row_inv _ _ _ Hl) as (d & h & m & n & Hpass & _ & _ & ->).
    assert (Htn : is_truthy (Some track_name) = true).
    { cbn. destruct (String.eqb_spec track_name ""); [contradiction|reflexivity]. }
    rewrite Htn in Hpass. cbn [andb] in Hpass.
    destruct (is_truthy (row !! "Track")) eqn:Hrt; cbn [andb] in Hpass.
    + right. apply negb_false_iff, String.eqb_eq in Hpass. rewrite Hpass.
      unfold str_or. rewrite Htn. reflexivity.
    + left. reflexivity.
  - intros row Hrt. unfold load_row. rewrite Hrt, !andb_false_r. reflexivity.
Qed.

(** X4. A malformed row is skipped and changes nothing else: the schedule is
    the one of the file without that row. *)
Theorem malformed_row_skipped (r1 r2 : list Row) (row : Row)
    (track_name : option string) :
  malformed row = true →
  load_schedule (Some (r1 ++ row :: r2)) track_name
  = load_schedule (Some (r1 ++ r2)) track_name.
Proof.
  intros Hm. pose proof (malformed_skipped track_name row Hm) as Hs.
  unfold load_schedule. rewrite !load_rows_spec.
  rewrite !existsb_app, !row_events_app. cbn [existsb].
  change (row :: r2) with ([row] ++ r2). rewrite row_events_app.
  unfold row_fails at 2. unfold row_events at 2, row_event. cbn [omap list_omap].
  rewrite Hs. reflexivity.
Qed.

(** X5. A row that passes the track filter and parses, with date
    [date_obj], start time [h:m] and a duration of [n] minutes, but whose
    duration leaves the range of [timedelta] or whose end leaves the
    range of [datetime], makes the loop body raise, and nothing is left
    of the file: the schedule is empty, whatever the other rows hold. *)
Theorem failing_row_empties (r1 r2 : list Row) (row : Row)
    (track_name : option string) (date_obj h m n : Z) :
  (is_truthy track_name && is_truthy (row !! "Track")
   && negb (String.eqb (strip (str_or (row !! "Track") "")) (str_or track_name "")))
  = false →
  (if negb (String.eqb (strip (str_or (row !! "Date") "")) "")
   then strptime_date (strip (str_or (row !! "Date") ""))
   else Some CONFERENCE_DATE) = Some date_obj →
  strip (str_or (row !! "Start Time") "") ≠ ""%string →
  strptime_time (strip (str_or (row !! "Start Time") "")) = Some (h, m) →
  strip (str_or (row !! "Duration") "") ≠ ""%string →
  int_of_str (strip (str_or (row !! "Duration") "")) = Some n →
  ¬ (- MAX_DELTA_DAYS <= timedelta_minutes n / 86400000000 <= MAX_DELTA_DAYS ∧
     86400000000 <= combine date_obj h m + timedelta_minutes n
     < (MAX_ORDINAL + 1) * 86400000000) →
  load_row track_name row = Failed ∧
  load_schedule (Some (r1 ++ row :: r2)) track_name = [].
Proof.
  intros Hpass Hdate Htne Htime Hdne Hint Hover.
  assert (Hf : load_row track_name row = Failed).
  { unfold load_row. rewrite Hpass, Hdate.
    apply String.eqb_neq in Htne, Hdne. rewrite Htne, Htime, Hdne, Hint.
    unfold timedelta_of_minutes, datetime_add.
    destruct (Z.leb_spec (- MAX_DELTA_DAYS) (timedelta_minutes n / 86400000000));
      destruct (Z.leb_spec (timedelta_minutes n / 86400000000) MAX_DELTA_DAYS);
      cbn [andb]; try reflexivity.
    destruct (Z.leb_spec (1 * 86400000000) (combine date_obj h m + timedelta_minutes n));
      destruct (Z.ltb_spec (combine date_obj h m + timedelta_minutes n)
                  ((MAX_ORDINAL + 1) * 86400000000));
      cbn [andb]; try reflexivity.
    exfalso. apply Hover. lia. }
  split; [exact Hf|].
  unfold load_schedule. rewrite load_rows_spec, existsb_app. cbn [existsb].
  unfold row_fails at 2. rewrite Hf, orb_true_r. reflexivity.
Qed.

Lemma combine_hour_minute d h m :
  0 <= h < 24 → 0 <= m < 60 →
  combine d h m / 3600000000 mod 24 = h ∧ combine d h m / 60000000 mod 60 = m.
Proof.
  intros Hh Hm. unfold combine.
  assert (H1 : ((d * 24 + h) * 60 + m) * 60 * 1000000 / 3600000000 = d * 24 + h).
  { symmetry. apply (Z.div_unique _ _ _ (m * 60000000)); lia. }
  assert (H2 : ((d * 24 + h) * 60 + m) * 60 * 1000000 / 60000000 = (d * 24 + h) * 60 + m).
  { symmetry. apply (Z.div_unique _ _ _ 0); lia. }
  rewrite H1, H2. split.
  - symmetry. apply (Z.mod_unique _ _ d); lia.
  - symmetry. apply (Z.mod_unique _ _ (d * 24 + h)); lia.
Qed.

(** X6. The start time of a row comes back on the screen: for a row that
    loads with start time [h:m], [strftime('%H:%M')] of the start of its
    event is [h] and [m], each on two digits. *)
Theorem start_time_round_trip (track_name : option string) (row : Row)
    (e : Event) (h m : Z) :
  load_row track_name row = Loaded e →
  strptime_time (strip (str_or (row !! "Start Time") "")) = Some (h, m) →
  strftime_HM (start e) = (fmt_02d h ++ ":" ++ fmt_02d m)%string.
Proof.
  intros Hl Ht.
  destruct (load_row_inv _ _ _ Hl) as (d & h' & m' & n & _ & Ht' & _ & ->).
  rewrite Ht in Ht'. injection Ht' as <- <-.
  destruct (strptime_time_range _ _ _ Ht) as [Hh Hm].
  unfold start. destruct (loaded_event_fields
    (if is_truthy (row !! "Track") then Some (strip (str_or (row !! "Track") "")) else None)
    d (strip (str_or (row !! "Type") "Talk")) (combine d h m)
    (combine d h m + timedelta_minutes n) (strip (str_or (row !! "Speaker") ""))
    (strip (str_or (row !! "Talk Title")
              (str_or (row !! "Title") (str_or (row !! "Speaker/Title") ""))))
    (strip (str_or (row !! "Synopsis") ""))) as (Hs & _).
  cbv zeta in Hs. rewrite Hs. unfold strftime_HM.
  destruct (combine_hour_minute d h m Hh Hm) as [-> ->]. reflexivity.
Qed.

(** X7. The event of a row with duration [n] ends [n] minutes after its
    start. With [n <= 0] it is in progress at no time; with [n > 0] it is
    in progress from its start on. *)
Theorem loaded_duration (track_name : option string) (row : Row) (e : Event) (n : Z) :
  load_row track_name row = Loaded e →
  int_of_str (strip (str_or (row !! "Duration") "")) = Some n →
  end_ e = start e + timedelta_minutes n ∧
  (n <= 0 → ∀ now, currentb now e = false) ∧
  (0 < n → ∀ now, currentb now e = true ↔ start e <= now < start e + timedelta_minutes n).
Proof.
  intros Hl Hn.
  destruct (load_row_inv _ _ _ Hl) as (d & h & m & n' & _ & _ & Hn' & ->).
  rewrite Hn in Hn'. injection Hn' as <-.
  assert (Hs : start (loaded_event
    (if is_truthy (row !! "Track") then Some (strip (str_or (row !! "Track") "")) else None)
    d (strip (str_or (row !! "Type") "Talk")) (combine d h m)
    (combine d h m + timedelta_minutes n) (strip (str_or (row !! "Speaker") ""))
    (strip (str_or (row !! "Talk Title")
              (str_or (row !! "Title") (str_or (row !! "Speaker/Title") ""))))
    (strip (str_or (row !! "Synopsis") ""))) = combine d h m) by reflexivity.
  assert (He : end_ (loaded_event
    (if is_truthy (row !! "Track") then Some (strip (str_or (row !! "Track") "")) else None)
    d (strip (str_or (row !! "Type") "Talk")) (combine d h m)
    (combine d h m + timedelta_minutes n) (strip (str_or (row !! "Speaker") ""))
    (strip (str_or (row !! "Talk Title")
              (str_or (row !! "Title") (str_or (row !! "Speaker/Title") ""))))
    (strip (str_or (row !! "Synopsis") ""))) = combine d h m + timedelta_minutes n)
    by reflexivity.
  unfold currentb. rewrite Hs, He. unfold timedelta_minutes.
  split; [reflexivity|]. split.
  - intros Hle now. lia.
  - intros Hlt now. rewrite andb_true_iff, Z.leb_le, Z.ltb_lt. reflexivity.
Qed.
End LoaderProperties.

Lemma load_schedule_stable_witness :
  @load_schedule demo_lib (Some demo_rows) (Some "STUDIO A"%string)
  ≡ₚ @row_events demo_lib (Some "STUDIO A"%string) demo_rows ∧
  ∀ t, starting_at t (@load_schedule demo_lib (Some demo_rows) (Some "STUDIO A"%string))
       = starting_at t (@row_events demo_lib (Some "STUDIO A"%string) demo_rows).
Proof.
  apply (@load_schedule_stable demo_lib demo_rows (Some "STUDIO A"%string)). vm_refl.
Defined.

Lemma track_filter_witness :
  demo_loaded_talk !! "track" = Some VNone ∨
  demo_loaded_talk !! "track" = Some (VStr "STUDIO A").
Proof.
  destruct (@track_filter demo_lib (Some demo_rows) "STUDIO A"%string) as [Hev _];
    [discriminate|].
  apply Hev.
  assert (Hload : @load_schedule demo_lib (Some demo_rows) (Some "STUDIO A"%string)
                  = [demo_loaded_talk; demo_loaded_break]) by vm_refl.
  rewrite Hload. left.
Defined.

Lemma malformed_row_skipped_witness :
  @load_schedule demo_lib (Some demo_rows) (Some "STUDIO A"%string)
  = @load_schedule demo_lib (Some (take 3 demo_rows)) (Some "STUDIO A"%string).
Proof.
  apply (@malformed_row_skipped demo_lib (take 3 demo_rows) []
           (demo_row "STUDIO A" "" "30" "Talk") (Some "STUDIO A"%string)).
  vm_refl.
Defined.

Lemma failing_row_empties_witness :
  @load_schedule demo_lib (Some (demo_rows ++ demo_failing_row :: []))
    (Some "STUDIO A"%string) = [].
Proof.
  apply (@failing_row_empties demo_lib demo_rows [] demo_failing_row
           (Some "STUDIO A"%string) 739435 9 0 9999999999999).
  - vm_refl.
  - vm_refl.
  - vm_compute. discriminate.
  - vm_refl.
  - vm_compute. discriminate.
  - vm_refl.
  - vm_compute. intros [[_ Hd] _]. apply Hd. reflexivity.
Defined.

Lemma start_time_round_trip_witness :
  strftime_HM (start demo_short_event) = "09:05"%string.
Proof.
  apply (@start_time_round_trip demo_lib (Some "STUDIO A"%string) demo_short_row
           demo_short_event 9 5); vm_refl.
Defined.

Lemma loaded_duration_witness :
  end_ demo_short_event = start demo_short_event + timedelta_minutes (-5) ∧
  currentb (combine 739435 9 2) demo_short_event = false.
Proof.
  destruct (@loaded_duration demo_lib (Some "STUDIO A"%string) demo_short_row
              demo_short_event (-5)) as (Hend & Hnever & _); try vm_refl.
  split; [exact Hend|]. apply Hnever. lia.
Defined.

(** ** More on the display state engine *)

(** X8. On a well-typed schedule the mode tells what the schedule holds at
    [now]: ['in_talk'] exactly when some event is in progress, ['none']
    exactly when no event is in progress or starts at [now] or later, and
    ['pre_start'] or ['normal'] exactly when no event is in progress and
    some event starts at [now] or later. *)
Theorem mode_by_events (schedule : list Event) (now : Z) :
  well_typed_schedule schedule = true →
  ∃ st, compute_display_state schedule now = Ok st ∧
    (mode st = "in_talk"%string ↔ ∃ e, e ∈ schedule ∧ currentb now e = true) ∧
    (mode st = "none"%string ↔
       ∀ e, e ∈ schedule → currentb now e = false ∧ upcomingb now e = false) ∧
    ((mode st = "pre_start" ∨ mode st = "normal")%string ↔
       (∀ e, e ∈ schedule → currentb now e = false) ∧
       ∃ e, e ∈ schedule ∧ upcomingb now e = true).
Proof.
  intros Hwt.
  assert (Hcur : currents schedule now = [] ↔ ∀ e, e ∈ schedule → currentb now e = false)
    by apply filter_nil_iff.
  assert (Hupc : upcoming schedule now = [] ↔ ∀ e, e ∈ schedule → upcomingb now e = false)
    by apply filter_nil_iff.
  destruct (compute_cases schedule now) as [[e He]|[[Hc Hu]|[Hc (nxt & rest & Hu)]]].
  - rewrite (compute_in_talk schedule now Hwt e He).
    eexists. split; [reflexivity|]. cbn [mode].
    destruct (last_currents_current _ _ _ He) as [Hin Hce].
    split; [|split].
    + split; eauto.
    + split; [discriminate|]. intros Hall. destruct (Hall e Hin). congruence.
    + split; [intros [?|?]; discriminate|].
      intros [Hall _]. specialize (Hall e Hin). congruence.
  - rewrite (compute_none schedule now Hwt Hc Hu).
    eexists. split; [reflexivity|]. cbn [mode].
    destruct Hcur as [Hcur _]. destruct Hupc as [Hupc _].
    split; [|split].
    + split; [discriminate|]. intros (e & Hin & Hce). rewrite (Hcur Hc e Hin) in Hce.
      discriminate.
    + split; auto.
    + split; [intros [?|?]; discriminate|].
      intros (_ & e & Hin & Hue). rewrite (Hupc Hu e Hin) in Hue. discriminate.
  - rewrite (compute_between schedule now Hwt nxt rest Hc Hu).
    eexists. split; [reflexivity|]. cbn [mode].
    destruct Hcur as [Hcur _].
    assert (Hn : nxt ∈ schedule ∧ upcomingb now nxt = true).
    { apply elem_of_upcoming. rewrite Hu. left. }
    split; [|split].
    + split; [destruct (is_session _ && _); discriminate|].
      intros (e & Hin & Hce). rewrite (Hcur Hc e Hin) in Hce. discriminate.
    + split; [destruct (is_session _ && _); discriminate|].
      intros Hall. destruct Hn as [Hin Hun]. destruct (Hall nxt Hin). congruence.
    + split; [intros _; split; [apply Hcur, Hc|exists nxt; exact Hn]|].
      intros _. destruct (is_session _ && _); auto.
Qed.

Lemma mode_by_events_witness :
  ∃ st, compute_display_state demo_schedule (combine 0 9 15) = Ok st ∧
        mode st = "in_talk"%string.
Proof.
  destruct (mode_by_events demo_schedule (combine 0 9 15)) as (st & Hst & Hin & _);
    [vm_refl|].
  exists st. split; [exact Hst|]. apply Hin.
  exists demo_talk. split; [left|vm_refl].
Defined.

Lemma head_upcoming_soonest schedule now n :
  sorted_by_start schedule = true →
  head (upcoming schedule now) = Some n →
  ∀ e, e ∈ schedule → now <= start e → start n <= start e.
Proof.
  induction schedule as [|x r IH]; [discriminate|].
  cbn [sorted_by_start]. intros Hs. apply andb_true_iff in Hs as [Hx Hr].
  rewrite upcoming_cons. unfold upcomingb at 1.
  destruct (Z.leb_spec now (start x)) as [Hle|Hgt].
  - intros [= <-] e He Hnow. apply elem_of_cons in He as [->|He]; [lia|].
    rewrite forallb_forall in Hx. apply list_elem_of_In in He.
    specialize (Hx e He). lia.
  - intros Hhd e He Hnow. apply elem_of_cons in He as [->|He]; [lia|].
    exact (IH Hr Hhd e He Hnow).
Qed.

(** X9. On a schedule in ascending order of start, [next_event] is a soonest
    event to come: no event that starts at [now] or later starts before
    it, and [following_event] does not start before it either. *)
Theorem next_event_is_soonest (schedule : list Event) (now : Z)
    (st : DisplayState Event) (n : Event) :
  well_typed_schedule schedule = true →
  sorted_by_start schedule = true →
  compute_display_state schedule now = Ok st →
  next_event st = Some n →
  (∀ e, e ∈ schedule → now <= start e → start n <= start e) ∧
  (∀ f, following_event st = Some f → start n <= start f).
Proof.
  intros Hwt Hsorted Hst Hn.
  destruct (compute_fields schedule now Hwt) as (st' & Hst' & _ & Hnext & Hfol & _).
  rewrite Hst in Hst'. injection Hst' as <-.
  rewrite Hnext in Hn.
  pose proof (head_upcoming_soonest schedule now n Hsorted Hn) as Hsoon.
  split; [exact Hsoon|].
  intros f Hf. rewrite Hfol in Hf.
  assert (Hin : f ∈ upcoming schedule now) by (apply list_elem_of_lookup; eauto).
  apply elem_of_upcoming in Hin as [Hin Hup]. unfold upcomingb in Hup.
  apply Hsoon; [exact Hin|lia].
Qed.

Lemma next_event_is_soonest_witness :
  start demo_talk <= start demo_break.
Proof.
  destruct (next_event_is_soonest demo_schedule (combine 0 8 0)
              {| mode := "normal"; current := None; next_event := Some demo_talk;
                 following_event := Some demo_break; seconds_to_start := Some 3600 |}
              demo_talk) as [_ Hfol]; try vm_refl.
  apply Hfol. reflexivity.
Defined.

(** Sortedness is needed: on the unsorted schedule [next_event] is the
    break of 09:30 although the talk of 09:00 is still to come. *)
Example unsorted_next_event_not_soonest :
  ∃ st, compute_display_state demo_unsorted (combine 0 8 0) = Ok st ∧
        next_event st = Some demo_break ∧
        demo_talk ∈ demo_unsorted ∧ start demo_talk < start demo_break.
Proof.
  exists {| mode := "normal"; current := None; next_event := Some demo_break;
            following_event := Some demo_talk; seconds_to_start := Some 5400 |}.
  split; [vm_refl|]. split; [reflexivity|]. split; [right; left|vm_refl].
Qed.

Lemma scan_app now l1 l2 : ∀ vars,
  scan now (l1 ++ l2) vars = vars' ← scan now l1 vars; scan now l2 vars'.
Proof.
  induction l1 as [|e l1 IH]; intros vars; cbn [app scan]; [reflexivity|].
  destruct (scan_body now e vars) as [vars1|x]; cbn [mbind result_bind]; [apply IH|].
  reflexivity.
Qed.

(** X10. The first event that is not well typed decides the exception: after
    well-typed events, an event without ['start'] raises [KeyError] for
    that key, one whose ['start'] is not a datetime raises [TypeError],
    and one that has started but has no ['end'] raises [KeyError] for
    ['end'], whatever follows it in the schedule. *)
Theorem first_bad_event_raises (l1 l2 : list Event) (e : Event) (now : Z) :
  well_typed_schedule l1 = true →
  (e !! "start" = None →
   compute_display_state (l1 ++ e :: l2) now = Raise (KeyError "start")) ∧
  (∀ v, e !! "start" = Some v → (∀ t, v ≠ VDatetime t) →
        compute_display_state (l1 ++ e :: l2) now = Raise TypeError) ∧
  (∀ t, e !! "start" = Some (VDatetime t) → t <= now → e !! "end" = None →
        compute_display_state (l1 ++ e :: l2) now = Raise (KeyError "end")).
Proof.
  intros Hwt.
  assert (Hraise : ∀ x, (∀ vars, scan_body now e vars = Raise x) →
            compute_display_state (l1 ++ e :: l2) now = Raise x).
  { intros x Hbody. unfold compute_display_state.
    rewrite scan_app, (scan_ok now l1 _ Hwt). cbn [mbind result_bind scan].
    rewrite Hbody. reflexivity. }
  split; [|split].
  - intros Hs. apply Hraise. intros vars.
    unfold scan_body, is_current, getitem. rewrite Hs. reflexivity.
  - intros v Hs Hv. apply Hraise. intros vars.
    unfold scan_body, is_current, getitem. rewrite Hs. cbn [mbind result_bind].
    destruct v; try reflexivity. exfalso. eapply Hv. reflexivity.
  - intros t Hs Hle He. apply Hraise. intros vars.
    unfold scan_body, is_current, getitem. rewrite Hs, He.
    cbn [mbind result_bind datetime_le].
    replace (t <=? now) with true by lia. reflexivity.
Qed.

Lemma first_bad_event_raises_witness :
  compute_display_state [demo_talk; demo_no_start; demo_break] (combine 0 9 15)
  = Raise (KeyError "start") ∧
  compute_display_state [demo_no_end; demo_break] (combine 0 9 15)
  = Raise (KeyError "end").
Proof.
  split.
  - destruct (first_bad_event_raises [demo_talk] [demo_break] demo_no_start
                (combine 0 9 15)) as (Hstart & _); [vm_refl|].
    apply Hstart. vm_refl.
  - destruct (first_bad_event_raises [] [demo_break] demo_no_end
                (combine 0 9 15)) as (_ & _ & Hend); [vm_refl|].
    apply (Hend (combine 0 9 0)); [vm_refl| |vm_refl].
    vm_compute. discriminate.
Defined.

(** X12. With a clock on whole seconds and starts on whole seconds, as the
    renderer and the loader have them, a countdown that reads 0 minutes
    announces an event that has no time to be in progress: its end is not
    after its start. *)
Theorem zero_warning_only_degenerate (schedule : list Event) (now : Z)
    (st : DisplayState Event) (n : Event) :
  well_typed_schedule schedule = true →
  compute_display_state schedule now = Ok st →
  mode st = "pre_start"%string →
  next_event st = Some n →
  (start n - now) mod 1000000 = 0 →
  minutes_remaining st = 0 →
  start n = now ∧ end_ n <= start n.
Proof.
  intros Hwt Hst Hmode Hn Hwhole Hzero.
  destruct (compute_cases schedule now) as [[e He]|[[Hc Hu]|[Hc (nxt & rest & Hu)]]].
  - rewrite (compute_in_talk schedule now Hwt e He) in Hst. injection Hst as <-.
    discriminate.
  - rewrite (compute_none schedule now Hwt Hc Hu) in Hst. injection Hst as <-.
    discriminate.
  - rewrite (compute_between schedule now Hwt nxt rest Hc Hu) in Hst.
    injection Hst as <-. cbn [next_event] in Hn. injection Hn as ->.
    assert (Hin : n ∈ schedule ∧ upcomingb now n = true).
    { apply elem_of_upcoming. rewrite Hu. left. }
    destruct Hin as [Hin Hup]. unfold upcomingb in Hup.
    assert (Hsecs : seconds_until n now = 0).
    { unfold minutes_remaining, warning_secs in Hzero. cbn [seconds_to_start] in Hzero.
      assert (0 <= seconds_until n now)
        by (unfold seconds_until; apply total_seconds_int_nonneg; lia).
      destruct (Z.eqb_spec (Z.max (seconds_until n now) 0) 0) as [E|E]; [lia|].
      assert (1 <= (Z.max (seconds_until n now) 0 + 59) / 60)
        by (apply Z.div_le_lower_bound; lia).
      lia. }
    assert (Hstart : start n = now).
    { unfold seconds_until in Hsecs.
      destruct (Z.lt_ge_cases (start n - now) 17179869184000000) as [Hlt|Hge].
      - rewrite total_seconds_int_exact in Hsecs by lia.
        pose proof (Z.div_mod (start n - now) 1000000 ltac:(lia)). lia.
      - pose proof (total_seconds_int_large _ Hge). lia. }
    split; [exact Hstart|].
    assert (Hnc : currentb now n = false).
    { apply (proj1 (filter_nil_iff (currentb now) schedule) Hc), Hin. }
    unfold currentb in Hnc. lia.
Qed.

Lemma zero_warning_only_degenerate_witness :
  start demo_degenerate = combine 0 9 50 ∧ end_ demo_degenerate <= start demo_degenerate.
Proof.
  apply (zero_warning_only_degenerate [demo_degenerate] (combine 0 9 50)
           {| mode := "pre_start"; current := None; next_event := Some demo_degenerate;
              following_event := None; seconds_to_start := Some 0 |} demo_degenerate);
    vm_refl.
Defined.

Lemma pre_start_warning_range_witness :
  minutes_remaining
    {| mode := "pre_start"; current := None; next_event := Some demo_talk;
       following_event := Some demo_break; seconds_to_start := Some 120 |} = 2.
Proof.
  destruct (pre_start_warning_range demo_schedule (combine 0 8 58)
              {| mode := "pre_start"; current := None; next_event := Some demo_talk;
                 following_event := Some demo_break; seconds_to_start := Some 120 |})
    as (_ & _ & _); try vm_refl.
Defined.

(** ** The width of the countdown text *)

Lemma fmt_02d_length n : 0 <= n < 100 → String.length (fmt_02d n) = 2%nat.
Proof.
  intros Hn.
  assert (Hall : forallb (fun k => Nat.eqb (String.length (fmt_02d (Z.of_nat k))) 2)
                   (seq 0 100) = true) by vm_refl.
  rewrite forallb_forall in Hall.
  specialize (Hall (Z.to_nat n)). rewrite Z2Nat.id in Hall by lia.
  apply Nat.eqb_eq, Hall, in_seq. lia.
Qed.

Lemma string_length_app (s1 s2 : string) :
  String.length (s1 ++ s2)%string = (String.length s1 + String.length s2)%nat.
Proof.
  induction s1 as [|c s1 IH]; [reflexivity|].
  change (String c s1 ++ s2)%string with (String c (s1 ++ s2)%string).
  cbn [String.length Nat.add]. f_equal. exact IH.
Qed.

(** X14. Below 100 hours the text of a duration has a fixed width: the five
    characters of [MM:SS] below one hour, the eight of [HH:MM:SS] from
    one hour on. *)
Theorem format_timedelta_width (td : Z) :
  0 <= total_seconds_int td < 360000 →
  String.length (format_timedelta td)
  = if total_seconds_int td <? 3600 then 5%nat else 8%nat.
Proof.
  intros Hrange.
  destruct (format_timedelta_shape td) as [Hmm Hhh]. cbv zeta in Hmm, Hhh.
  rewrite Z.max_l in Hmm, Hhh by lia.
  set (total := total_seconds_int td) in *.
  assert (Hm : 0 <= total mod 3600 / 60 < 100).
  { pose proof (Z.mod_pos_bound total 3600 ltac:(lia)).
    split; [apply Z.div_pos; lia|]. apply Z.div_lt_upper_bound; lia. }
  assert (Hs : 0 <= total mod 3600 mod 60 < 100).
  { pose proof (Z.mod_pos_bound (total mod 3600) 60 ltac:(lia)). lia. }
  destruct (Z.ltb_spec total 3600) as [Hlt|Hge].
  - destruct (Hmm (Z.div_small total 3600 ltac:(lia))) as [-> _].
    rewrite !string_length_app, !fmt_02d_length by assumption. reflexivity.
  - assert (Hh : 0 < total / 3600 < 100).
    { split; [apply Z.div_str_pos; lia|]. apply Z.div_lt_upper_bound; lia. }
    destruct (Hhh ltac:(lia)) as [-> _].
    rewrite !string_length_app, !fmt_02d_length by lia. reflexivity.
Qed.

Lemma format_timedelta_width_witness :
  String.length (format_timedelta (timedelta_seconds 3661)) = 8%nat.
Proof.
  apply (format_timedelta_width (timedelta_seconds 3661)). vm_compute.
  split; [discriminate|reflexivity].
Defined.

(** ** The renderer *)

Section Renderer.
Context `{PyLib}.

Lemma item_or_empty_ok e k :
  has_text e k = true → ∃ v, item_or_empty e k = Ok v.
Proof.
  unfold has_text, item_or_empty, getitem.
  destruct (e !! k) as [v|]; [|discriminate]. intros _. cbn. eauto.
Qed.

Lemma item_strftime_ok e k :
  has_datetime e k = true → ∃ s, item_strftime e k = Ok s.
Proof.
  unfold has_datetime, item_strftime, getitem.
  destruct (e !! k) as [[]|]; try discriminate. intros _. cbn. eauto.
Qed.

Lemma displayable_items e :
  displayable e = true →
  well_typed e = true ∧
  (∃ v, item_or_empty e "speaker" = Ok v) ∧ (∃ v, item_or_empty e "title" = Ok v) ∧
  (∃ v, item_or_empty e "synopsis" = Ok v) ∧
  (∃ s, item_strftime e "start" = Ok s) ∧ (∃ s, item_strftime e "end" = Ok s).
Proof.
  unfold displayable. rewrite !andb_true_iff. intros [[[Hwt Hsp] Hti] Hsy].
  split; [exact Hwt|].
  unfold well_typed in Hwt. rewrite !andb_true_iff in Hwt. destruct Hwt as [[Hs He] _].
  repeat split; try (apply item_or_empty_ok; assumption);
    apply item_strftime_ok; assumption.
Qed.

(** The four texts and the theme, written in a row. *)
Lemma run_paint bg title_fg body_fg s1 s2 s3 s4 (k : UI unit) w :
  (_ ← (_ ← _apply_theme bg title_fg body_fg None;
        _ ← config_text Status s1;
        _ ← config_text Title s2;
        _ ← config_text Info s3;
        config_text Extra s4);
   k) w
  = k (mkWidgets bg (mkLabel (l_text (header_label w)) body_fg bg)
         (mkLabel s1 body_fg bg) (mkLabel s2 title_fg bg)
         (mkLabel s3 body_fg bg) (mkLabel s4 body_fg bg) (after_calls w)).
Proof. reflexivity. Qed.

(** On a schedule of displayable events a tick raises nothing, registers
    the next tick, and does not come to the screen of the unknown state;
    it shows the fail-safe text exactly when the schedule is empty. *)
Lemma update_displayable (schedule : list Event) (clock : Z) (w : Widgets) :
  forallb displayable schedule = true →
  ∃ w', update schedule clock w = (Ok tt, w') ∧
        after_calls w' = after_calls w ++ [1000] ∧
        l_text (header_label w') = l_text (header_label w) ∧
        l_text (status_label w') ≠ "Schedule state unknown"%string ∧
        (schedule = [] ↔
         l_text (status_label w') = "FAIL-SAFE: No schedule loaded"%string).
Proof.
  intros Hdisp.
  destruct schedule as [|e0 rest0].
  { eexists. split; [reflexivity|]. cbn. repeat split; auto; discriminate. }
  unfold update. cbv beta iota zeta.
  set (schedule := e0 :: rest0) in *.
  set (now := clock - clock mod 1000000).
  assert (Hshape : ∀ s, s ≠ "FAIL-SAFE: No schedule loaded"%string →
            (schedule = [] ↔ s = "FAIL-SAFE: No schedule loaded"%string)).
  { intros s Hs. split; [discriminate|intros; contradiction]. }
  assert (Hitems : ∀ e, e ∈ schedule → displayable e = true).
  { intros e He. rewrite forallb_forall in Hdisp. apply Hdisp, list_elem_of_In, He. }
  assert (Hwt : well_typed_schedule schedule = true).
  { apply forallb_forall. intros e He.
    apply (displayable_items e), Hitems, list_elem_of_In, He. }
  clearbody schedule.
  destruct (compute_cases schedule now) as [[e He]|[[Hc Hu]|[Hc (nxt & rest & Hu)]]].
  - rewrite (compute_in_talk schedule now Hwt e He).
    destruct (last_currents_current _ _ _ He) as [Hin _].
    destruct (displayable_items e (Hitems e Hin))
      as (Hwe & [sp Hsp] & [ti Hti] & [sy Hsy] & _ & [en Hen]).
    unfold mbind at 1, UI_bind at 1, ui_lift at 1.
    cbn [mode current String.eqb Ascii.eqb Bool.eqb].
    unfold if_dict. rewrite (well_typed_truthy e Hwe).
    unfold mbind at 2 3 4 5, UI_bind at 2 3 4 5, ui_lift.
    rewrite Hsp, Hti, Hsy, Hen. rewrite run_paint.
    eexists. split; [reflexivity|]. cbn.
    repeat split; auto; try discriminate. apply Hshape. discriminate.
  - rewrite (compute_none schedule now Hwt Hc Hu).
    unfold mbind at 1, UI_bind at 1, ui_lift at 1.
    cbn [mode none_state String.eqb Ascii.eqb Bool.eqb].
    rewrite run_paint.
    eexists. split; [reflexivity|]. cbn.
    repeat split; auto; try discriminate. apply Hshape. discriminate.
  - rewrite (compute_between schedule now Hwt nxt rest Hc Hu).
    assert (Hin : nxt ∈ schedule).
    { apply (elem_of_upcoming schedule now). rewrite Hu. left. }
    destruct (displayable_items nxt (Hitems nxt Hin))
      as (Hwn & [sp Hsp] & [ti Hti] & [sy Hsy] & [st Hst] & _).
    unfold mbind at 1, UI_bind at 1, ui_lift at 1.
    destruct (is_session (event_type nxt) && (seconds_until nxt now <=? 300));
      cbn [mode current next_event following_event String.eqb Ascii.eqb Bool.eqb].
    + unfold if_dict. rewrite (well_typed_truthy nxt Hwn).
      unfold mbind at 2 3 4 5, UI_bind at 2 3 4 5, ui_lift.
      rewrite Hsp, Hti, Hsy, Hst. rewrite run_paint.
      eexists. split; [reflexivity|]. cbn [after_calls header_label status_label l_text root_after snd].
      split; [reflexivity|]. split; [reflexivity|].
      assert (Hs : ∀ s : string, ("Starting soon " ++ s)%string ≠ "Schedule state unknown"%string
                     ∧ ("Starting soon " ++ s)%string ≠ "FAIL-SAFE: No schedule loaded"%string).
      { intros s. split; discriminate. }
      split; [apply Hs|]. apply Hshape, Hs.
    + unfold if_dict. rewrite (well_typed_truthy nxt Hwn).
      destruct rest as [|f rest'].
      * cbn [head truthy_dict].
        unfold mbind, UI_bind, ui_lift. rewrite Hsp, Hti, Hst.
        eexists. split; [reflexivity|]. cbn.
        repeat split; auto; try discriminate. apply Hshape. discriminate.
      * assert (Hf : f ∈ schedule).
        { apply (elem_of_upcoming schedule now). rewrite Hu. right. left. }
        destruct (displayable_items f (Hitems f Hf))
          as (Hwf & [fsp Hfsp] & [fti Hfti] & _ & [fst Hfst] & _).
        cbn [head]. rewrite (well_typed_truthy f Hwf).
        unfold mbind, UI_bind, ui_lift. rewrite Hsp, Hti, Hst, Hfsp, Hfti, Hfst.
        eexists. split; [reflexivity|]. cbn.
        repeat split; auto; try discriminate. apply Hshape. discriminate.
Qed.
End Renderer.

Section RendererProperties.
Context `{PyLib}.

Lemma load_row_displayable track_name row e :
  load_row track_name row = Loaded e → displayable e = true.
Proof.
  intros Hl. destruct (load_row_inv _ _ _ Hl) as (d & h & m & n & _ & _ & _ & ->).
  reflexivity.
Qed.

Lemma load_schedule_displayable source track_name :
  forallb displayable (load_schedule source track_name) = true.
Proof.
  apply forallb_forall. intros e He.
  apply list_elem_of_In, elem_of_load_schedule in He as (rows & row & _ & _ & Hl).
  exact (load_row_displayable _ _ _ Hl).
Qed.

(** X15. Whatever the file holds, a tick on the loaded schedule raises
    nothing and registers the next tick, so the display never stops; it
    never comes to the screen of the unknown state; and it shows the
    fail-safe text exactly when no event was loaded. The same holds for
    the first tick, which [__init__] runs. *)
Theorem tick_on_loaded_schedule (source : option (list Row))
    (track_name : option string) (clock : Z) (w : Widgets) :
  (∃ w', update (load_schedule source track_name) clock w = (Ok tt, w') ∧
         after_calls w' = after_calls w ++ [1000] ∧
         l_text (header_label w') = l_text (header_label w) ∧
         l_text (status_label w') ≠ "Schedule state unknown"%string ∧
         (load_schedule source track_name = [] ↔
          l_text (status_label w') = "FAIL-SAFE: No schedule loaded"%string)) ∧
  (∃ w', app_init source track_name clock = (Ok tt, w') ∧ after_calls w' = [1000]).
Proof.
  split.
  - apply update_displayable, load_schedule_displayable.
  - destruct (update_displayable (load_schedule source track_name) clock
                (init_widgets track_name) (load_schedule_displayable _ _))
      as (w' & Hw' & Hafter & _).
    exists w'. split; [exact Hw'|exact Hafter].
Qed.

Lemma ui_bind_ok {A B : Type} (a : A) (f : A → UI B) :
  (ui_lift (Ok a) ≫= f) = f a.
Proof. reflexivity. Qed.

(** One case split on what a tick tests or reads. *)
Ltac update_case :=
  match goal with
  | |- context [if String.eqb ?a ?b then _ else _] => destruct (String.eqb a b)
  | |- context [if_dict ?o] => destruct (if_dict o)
  | |- context [ui_lift (item_or_empty ?d ?k)] =>
      destruct (item_or_empty d k) as [?|?x];
      [|left; exists x; intros ?; reflexivity]
  | |- context [ui_lift (item_strftime ?d ?k)] =>
      destruct (item_strftime d k) as [?|?x];
      [|left; exists x; intros ?; reflexivity]
  end; rewrite ?ui_bind_ok; cbv beta iota.

(** A tick on a schedule that is not empty either raises, the same
    exception whatever the window showed, or writes the theme and the
    four texts anew. *)
Lemma update_outcome (schedule : list Event) (clock : Z) :
  schedule ≠ [] →
  (∃ x, ∀ w, fst (update schedule clock w) = Raise x) ∨
  (∃ bg title_fg body_fg s1 s2 s3 s4, ∀ w,
     update schedule clock w
     = (Ok tt, mkWidgets bg (mkLabel (l_text (header_label w)) body_fg bg)
                 (mkLabel s1 body_fg bg) (mkLabel s2 title_fg bg)
                 (mkLabel s3 body_fg bg) (mkLabel s4 body_fg bg)
                 (after_calls w ++ [1000]))).
Proof.
  destruct schedule as [|e0 rest0]; [contradiction|]. intros _.
  unfold update. cbv beta iota zeta.
  destruct (compute_display_state _ _) as [state|x];
    [|left; exists x; intros w; reflexivity].
  rewrite !ui_bind_ok. cbv beta.
  repeat update_case;
    right; do 7 eexists; intros w;
    cbv [mbind UI_bind mret UI_ret ui_lift _apply_theme config_text config_colors
         root_configure root_after set_label get_label default
         l_text l_fg l_bg root_bg header_label status_label title_label
         info_label extra_label after_calls];
    reflexivity.
Qed.

(** X16. A tick that raises nothing leaves no trace of what the window showed
    before: the four texts are written anew, and so are all colours
    unless the schedule is empty, where the fail-safe screen keeps the
    colours it finds. The text of the header is never touched. *)
Theorem update_overwrites_screen (schedule : list Event) (clock : Z)
    (w1 w2 w1' w2' : Widgets) :
  update schedule clock w1 = (Ok tt, w1') →
  update schedule clock w2 = (Ok tt, w2') →
  texts w1' = texts w2' ∧
  (schedule ≠ [] → colours w1' = colours w2') ∧
  (schedule = [] → colours w1' = colours w1) ∧
  l_text (header_label w1') = l_text (header_label w1).
Proof.
  intros H1 H2. destruct schedule as [|e0 rest0].
  - injection H1 as <-. injection H2 as <-. cbn.
    repeat split; auto. intros Hne; contradiction.
  - destruct (update_outcome (e0 :: rest0) clock ltac:(discriminate))
      as [(x & Hx)|(bg & tfg & bfg & s1 & s2 & s3 & s4 & Hrun)].
    + specialize (Hx w1). rewrite H1 in Hx. discriminate.
    + rewrite Hrun in H1, H2. injection H1 as <-. injection H2 as <-.
      cbn. repeat split; auto. discriminate.
Qed.

(** C7. The minute warning a tick displays. On a schedule of displayable
    events, when the engine gives mode ['pre_start'] with
    [seconds_to_start = n], [update] writes "Starting soon - m minute
    warning" (with an en dash) in the status label, where [m] is [n]
    seconds rounded up to whole minutes: the least [m] with
    [n <= 60 * m], one digit from 0 to 5. So 299 seconds show "5 minute
    warning", 240 seconds "4 minute warning", 1 second "1 minute warning"
    and 0 seconds "0 minute warning", and the warning shows at least 1
    while [n > 0]. *)
Theorem displayed_minute_warning (schedule : list Event) (clock : Z) (w : Widgets)
    (st : DisplayState Event) (n : Z) :
  forallb displayable schedule = true →
  compute_display_state schedule (clock - clock mod 1000000) = Ok st →
  mode st = "pre_start"%string →
  seconds_to_start st = Some n →
  ∃ (w' : Widgets) (m : Z),
    update schedule clock w = (Ok tt, w') ∧
    l_text (status_label w')
    = ("Starting soon " ++ EN_DASH ++ " " ++ str_of_int m ++ " minute warning")%string ∧
    0 <= n <= 300 ∧
    n <= 60 * m < n + 60 ∧
    (0 < n → 1 <= m) ∧
    str_of_int m = String (ascii_of_N (48 + Z.to_N m)) EmptyString ∧
    (n = 299 → l_text (status_label w')
               = ("Starting soon " ++ EN_DASH ++ " 5 minute warning")%string) ∧
    (n = 240 → l_text (status_label w')
               = ("Starting soon " ++ EN_DASH ++ " 4 minute warning")%string) ∧
    (n = 1 → l_text (status_label w')
             = ("Starting soon " ++ EN_DASH ++ " 1 minute warning")%string) ∧
    (n = 0 → l_text (status_label w')
             = ("Starting soon " ++ EN_DASH ++ " 0 minute warning")%string).
Proof.
  intros Hdisp Hst Hmode Hn.
  destruct schedule as [|e0 rest0].
  { injection Hst as <-. discriminate. }
  unfold update. cbv beta iota zeta.
  set (schedule := e0 :: rest0) in *.
  set (now := clock - clock mod 1000000) in *.
  assert (Hitems : ∀ e, e ∈ schedule → displayable e = true).
  { intros e He. rewrite forallb_forall in Hdisp. apply Hdisp, list_elem_of_In, He. }
  assert (Hwt : well_typed_schedule schedule = true).
  { apply forallb_forall. intros e He.
    apply (displayable_items e), Hitems, list_elem_of_In, He. }
  clearbody schedule.
  destruct (compute_cases schedule now) as [[e He]|[[Hc Hu]|[Hc (nxt & rest & Hu)]]].
  { rewrite (compute_in_talk schedule now Hwt e He) in Hst. injection Hst as <-.
    discriminate. }
  { rewrite (compute_none schedule now Hwt Hc Hu) in Hst. injection Hst as <-.
    discriminate. }
  rewrite (compute_between schedule now Hwt nxt rest Hc Hu) in Hst |- *.
  assert (Hin : nxt ∈ schedule).
  { apply (elem_of_upcoming schedule now). rewrite Hu. left. }
  destruct (displayable_items nxt (Hitems nxt Hin))
    as (Hwn & [sp Hsp] & [ti Hti] & [sy Hsy] & [stt Hstt] & _).
  destruct (is_session (event_type nxt) && (seconds_until nxt now <=? 300)) eqn:Hb.
  2: { injection Hst as <-. discriminate. }
  apply andb_true_iff in Hb as [_ Hle]. apply Z.leb_le in Hle.
  injection Hst as <-. cbn [seconds_to_start] in Hn. injection Hn as <-.
  unfold mbind at 1, UI_bind at 1, ui_lift at 1.
  cbn [mode current next_event following_event String.eqb Ascii.eqb Bool.eqb].
  unfold if_dict. rewrite (well_typed_truthy nxt Hwn).
  unfold mbind at 2 3 4 5, UI_bind at 2 3 4 5, ui_lift.
  rewrite Hsp, Hti, Hsy, Hstt. rewrite run_paint.
  match goal with |- context [minutes_remaining ?s] => set (st := s) end.
  set (n := Z.max (seconds_until nxt now) 0) in *.
  assert (Hrange : 0 <= n <= 300) by lia.
  destruct (minute_warning_ceiling st n eq_refl ltac:(lia))
    as (Hceil & Hone & H0 & H1 & H240 & H299).
  assert (Hdigit : str_of_int (minutes_remaining st)
                   = String (ascii_of_N (48 + Z.to_N (minutes_remaining st))) EmptyString).
  { assert (Hm : minutes_remaining st = 0 ∨ minutes_remaining st = 1
                 ∨ minutes_remaining st = 2 ∨ minutes_remaining st = 3
                 ∨ minutes_remaining st = 4 ∨ minutes_remaining st = 5) by lia.
    destruct Hm as [->|[->|[->|[->|[->| ->]]]]]; reflexivity. }
  eexists. exists (minutes_remaining st). split; [reflexivity|].
  cbn [after_calls header_label status_label l_text root_after snd].
  split; [reflexivity|]. split; [exact Hrange|]. split; [exact Hceil|].
  split; [exact Hone|]. split; [exact Hdigit|].
  split; [|split; [|split]]; intros Hv.
  - rewrite (H299 Hv). reflexivity.
  - rewrite (H240 Hv). reflexivity.
  - rewrite (H1 Hv). reflexivity.
  - rewrite (H0 Hv). reflexivity.
Qed.

End RendererProperties.

Lemma displayed_minute_warning_witness :
  ∃ w', @update demo_lib demo_schedule (combine 0 8 55 + 1000000 + 250000)
          (init_widgets None) = (Ok tt, w') ∧
        l_text (status_label w')
        = ("Starting soon " ++ @EN_DASH demo_lib ++ " 5 minute warning")%string.
Proof.
  destruct (@displayed_minute_warning demo_lib demo_schedule
              (combine 0 8 55 + 1000000 + 250000) (init_widgets None)
              {| mode := "pre_start"; current := None; next_event := Some demo_talk;
                 following_event := Some demo_break; seconds_to_start := Some 299 |}
              299)
    as (w' & m & Hrun & _ & _ & _ & _ & _ & H299 & _).
  - vm_refl.
  - vm_refl.
  - reflexivity.
  - reflexivity.
  - exists w'. split; [exact Hrun|]. apply H299. reflexivity.
Defined.

Lemma update_overwrites_screen_witness :
  ∃ w1' w2',
    @update demo_lib demo_schedule (combine 0 9 15) (init_widgets None) = (Ok tt, w1') ∧
    @update demo_lib demo_schedule (combine 0 9 15) w1' = (Ok tt, w2') ∧
    texts w1' = texts w2' ∧ colours w1' = colours w2'.
Proof.
  destruct (@update_displayable demo_lib demo_schedule (combine 0 9 15)
              (init_widgets None)) as (w1' & Hw1 & _); [vm_refl|].
  destruct (@update_displayable demo_lib demo_schedule (combine 0 9 15) w1')
    as (w2' & Hw2 & _); [vm_refl|].
  exists w1', w2'. split; [exact Hw1|]. split; [exact Hw2|].
  destruct (@update_overwrites_screen demo_lib demo_schedule (combine 0 9 15)
              (init_widgets None) w1' w1' w2' Hw1 Hw2) as (Htexts & Hcol & _).
  split; [exact Htexts|]. apply Hcol. discriminate.
Defined.

